(** * FIRE_Engine_V10: the ticket distribution engine of engine.py

    A shallow embedding of [analyze_ticket], [get_office],
    [_find_canonical_office] and [distribute], with the pandas frame
    operations they use, and of the constructor's helpers
    [_parse_skills] and [_smart_normalize] (on the column labels),
    followed by the properties of the routing policy.

    Python [str] values are kept UTF-8 encoded in Rocq strings: a literal
    such as "астан" is the byte sequence of the source file.  UTF-8 is
    self-synchronising, so substring tests, replacement and comparison on
    the bytes of well-formed text agree with the same operations on code
    points (byte order is code-point order). *)

From Stdlib Require Import ZArith NArith Ascii String Sorted Permutation.
From Stdlib Require Import OrdersEx.
From stdpp Require Import gmap strings list fin_maps.

Local Open Scope Z_scope.

(** ** Python string operations *)

Module Py.

(** [sub in s] *)
Fixpoint contains (sub s : string) : bool :=
  String.prefix sub s ||
  match s with
  | EmptyString => false
  | String _ s' => contains sub s'
  end.

Fixpoint drop (n : nat) (s : string) : string :=
  match n, s with
  | S k, String _ s' => drop k s'
  | _, _ => s
  end.

Definition rev (s : string) : string :=
  string_of_list_ascii (List.rev (list_ascii_of_string s)).

(** [s.replace(old, new)] for a non-empty [old]: occurrences are taken
    left to right and do not overlap.  [skip] counts the bytes of a
    match that are still to be dropped. *)
Fixpoint replace_from (old new : string) (skip : nat) (s : string) : string :=
  match s with
  | EmptyString => EmptyString
  | String c s' =>
      match skip with
      | S k => replace_from old new k s'
      | O =>
          if String.prefix old s
          then new +:+ replace_from old new (String.length old - 1) s'
          else String c (replace_from old new 0 s')
      end
  end.

Definition replace (old new s : string) : string := replace_from old new 0 s.

(** *** Case mapping

    One- and two-byte sequences are decoded to their code point, mapped
    and encoded again.  The tables cover ASCII and the Cyrillic blocks
    U+0400..U+052F (Russian and Kazakh letters); every other code point
    is left as it is. *)

Definition between (lo hi x : N) : bool := ((lo <=? x) && (x <=? hi))%N.

Definition lower_cp (cp : N) : N :=
  (if between 0x41 0x5A cp then cp + 0x20
   else if between 0x400 0x40F cp then cp + 0x50
   else if between 0x410 0x42F cp then cp + 0x20
   else if between 0x460 0x481 cp && N.even cp then cp + 1
   else if between 0x48A 0x4BF cp && N.even cp then cp + 1
   else if cp =? 0x4C0 then 0x4CF
   else if between 0x4C1 0x4CE cp && N.odd cp then cp + 1
   else if between 0x4D0 0x52F cp && N.even cp then cp + 1
   else cp)%N.

Definition upper_cp (cp : N) : N :=
  (if between 0x61 0x7A cp then cp - 0x20
   else if between 0x450 0x45F cp then cp - 0x50
   else if between 0x430 0x44F cp then cp - 0x20
   else if between 0x460 0x481 cp && N.odd cp then cp - 1
   else if between 0x48A 0x4BF cp && N.odd cp then cp - 1
   else if cp =? 0x4CF then 0x4C0
   else if between 0x4C1 0x4CE cp && N.even cp then cp - 1
   else if between 0x4D0 0x52F cp && N.odd cp then cp - 1
   else cp)%N.

Definition is_lead2 (c : ascii) : bool := between 0xC0 0xDF (N_of_ascii c).
Definition is_cont (c : ascii) : bool := between 0x80 0xBF (N_of_ascii c).

Definition decode2 (c d : ascii) : N :=
  ((N_of_ascii c - 0xC0) * 64 + (N_of_ascii d - 0x80))%N.

Definition encode2 (cp : N) (rest : string) : string :=
  String (ascii_of_N (0xC0 + cp / 64)) (String (ascii_of_N (0x80 + cp mod 64)) rest).

Fixpoint map_cp (f : N -> N) (s : string) : string :=
  match s with
  | EmptyString => EmptyString
  | String c s' =>
      if (N_of_ascii c <? 0x80)%N then String (ascii_of_N (f (N_of_ascii c))) (map_cp f s')
      else
        match s' with
        | String d s'' =>
            if is_lead2 c && is_cont d
            then encode2 (f (decode2 c d)) (map_cp f s'')
            else String c (map_cp f s')
        | EmptyString => String c EmptyString
        end
  end.

Definition lower : string -> string := map_cp lower_cp.
Definition upper : string -> string := map_cp upper_cp.

(** [s.capitalize()]: the first character in upper case, the rest in
    lower case. *)
Definition capitalize (s : string) : string :=
  match s with
  | EmptyString => EmptyString
  | String c s' =>
      if (N_of_ascii c <? 0x80)%N then upper (String c EmptyString) +:+ lower s'
      else
        match s' with
        | String d s'' => upper (String c (String d EmptyString)) +:+ lower s''
        | EmptyString => s
        end
  end.

(** *** [s.strip()]

    The characters Python counts as white space, UTF-8 encoded. *)

Definition bytes (l : list N) : string :=
  string_of_list_ascii (List.map ascii_of_N l).

Definition whitespace : list string :=
  List.map bytes
    ([ [0x09]; [0x0A]; [0x0B]; [0x0C]; [0x0D]; [0x1C]; [0x1D]; [0x1E]; [0x1F]; [0x20];
       [0xC2; 0x85]; [0xC2; 0xA0]; [0xE1; 0x9A; 0x80];
       [0xE2; 0x80; 0x80]; [0xE2; 0x80; 0x81]; [0xE2; 0x80; 0x82]; [0xE2; 0x80; 0x83];
       [0xE2; 0x80; 0x84]; [0xE2; 0x80; 0x85]; [0xE2; 0x80; 0x86]; [0xE2; 0x80; 0x87];
       [0xE2; 0x80; 0x88]; [0xE2; 0x80; 0x89]; [0xE2; 0x80; 0x8A];
       [0xE2; 0x80; 0xA8]; [0xE2; 0x80; 0xA9]; [0xE2; 0x80; 0xAF];
       [0xE2; 0x81; 0x9F]; [0xE3; 0x80; 0x80] ])%N.

Fixpoint lstrip_with (ws : list string) (fuel : nat) (s : string) : string :=
  match fuel with
  | O => s
  | S k =>
      match List.find (fun w => String.prefix w s) ws with
      | Some w => lstrip_with ws k (drop (String.length w) s)
      | None => s
      end
  end.

Definition lstrip (s : string) : string :=
  lstrip_with whitespace (String.length s) s.

Definition rstrip (s : string) : string :=
  rev (lstrip_with (List.map rev whitespace) (String.length s) (rev s)).

Definition strip (s : string) : string := rstrip (lstrip s).

(** *** The regular expressions of the engine *)

Definition is_az (c : ascii) : bool := between 0x61 0x7A (N_of_ascii c).

(** [а-я] is U+0430..U+044F: D0 B0..D0 BF and D1 80..D1 8F. *)
Definition is_cyr_lower (c d : ascii) : bool :=
  ((N_of_ascii c =? 0xD0)%N && between 0xB0 0xBF (N_of_ascii d)) ||
  ((N_of_ascii c =? 0xD1)%N && between 0x80 0x8F (N_of_ascii d)).

(** [re.sub(r"[^a-zа-я]+", "", s)]: only the characters of the class
    stay. *)
Fixpoint keep_letters (s : string) : string :=
  match s with
  | EmptyString => EmptyString
  | String c s' =>
      if is_az c then String c (keep_letters s')
      else
        match s' with
        | String d s'' =>
            if is_cyr_lower c d then String c (String d (keep_letters s''))
            else keep_letters s'
        | EmptyString => EmptyString
        end
  end.

(** [re.search(r"[a-z]{3,}", s)] *)
Fixpoint has_latin_word (s : string) : bool :=
  match s with
  | String a ((String b (String c _)) as s') =>
      (is_az a && is_az b && is_az c) || has_latin_word s'
  | _ => false
  end.

(** [re.search(r"[...]", s)] for a class given by its characters. *)
Definition has_char_of (class : list string) (s : string) : bool :=
  List.existsb (fun ch => contains ch s) class.

End Py.

(** ** Data model *)

(** A cell of a ticket row: text, or the NaN pandas stores for an empty
    CSV field. *)
Inductive cell := Str (s : string) | NaN.

(** [str(x)] *)
Definition py_str (x : cell) : string :=
  match x with
  | Str s => s
  | NaN => "nan"
  end.

(** A ticket row.  The engine reads it with [ticket.get(column, default)],
    so a field may be absent. *)
Module Ticket.
Record t := mk {
  guid : option cell;
  description : option cell;
  segment : option cell;
  country : option cell;
  city : option cell
}.
End Ticket.

(** [ticket.get(column, default)] *)
Definition get (field : option cell) (default : string) : cell :=
  match field with
  | Some x => x
  | None => Str default
  end.

(** The three closed sets of strings of the analysis, as enumerations,
    and the strings the source writes for them. *)
Inductive Segment := VIP | PRIORITY | MASS.
Inductive Lang := KZ | ENG | RU.
Inductive Intent :=
  | Consultation | Fraud | AppFailure | Claim | DataChange | Complaint | Spam.

Definition segment_name (s : Segment) : string :=
  match s with VIP => "VIP" | PRIORITY => "PRIORITY" | MASS => "MASS" end.

Definition lang_name (l : Lang) : string :=
  match l with KZ => "KZ" | ENG => "ENG" | RU => "RU" end.

Definition intent_name (i : Intent) : string :=
  match i with
  | Consultation => "Консультация"
  | Fraud => "Мошеннические действия"
  | AppFailure => "Неработоспособность приложения"
  | Claim => "Претензия"
  | DataChange => "Смена данных"
  | Complaint => "Жалоба"
  | Spam => "Спам"
  end.

#[global] Instance Segment_eq_dec : EqDecision Segment.
Proof. solve_decision. Defined.
#[global] Instance Lang_eq_dec : EqDecision Lang.
Proof. solve_decision. Defined.
#[global] Instance Intent_eq_dec : EqDecision Intent.
Proof. solve_decision. Defined.

#[global] Instance Segment_countable : Countable Segment.
Proof.
  refine (inj_countable' (fun s => match s with VIP => 0 | PRIORITY => 1 | MASS => 2 end)%nat
            (fun n => match n with 0 => VIP | 1 => PRIORITY | _ => MASS end)%nat _).
  by intros [].
Defined.

#[global] Instance Lang_countable : Countable Lang.
Proof.
  refine (inj_countable' (fun l => match l with KZ => 0 | ENG => 1 | RU => 2 end)%nat
            (fun n => match n with 0 => KZ | 1 => ENG | _ => RU end)%nat _).
  by intros [].
Defined.

#[global] Instance Intent_countable : Countable Intent.
Proof.
  refine (inj_countable'
            (fun i => match i with
                      | Consultation => 0 | Fraud => 1 | AppFailure => 2 | Claim => 3
                      | DataChange => 4 | Complaint => 5 | Spam => 6 end)%nat
            (fun n => match n with
                      | 0 => Consultation | 1 => Fraud | 2 => AppFailure | 3 => Claim
                      | 4 => DataChange | 5 => Complaint | _ => Spam end)%nat _).
  by intros [].
Defined.

(** The dictionary [analyze_ticket] returns. *)
Module AI.
Record t := mk {
  type : Intent;
  lang : Lang;
  priority : Z;
  segment : Segment
}.
End AI.

(** A row of the managers frame after the constructor has normalised
    it: [pos_norm] and [skills_set] are the derived columns, [load] is
    the integer the constructor cast the column to. *)
Module Manager.
Record t := mk {
  name : string;
  pos_norm : string;
  skills_set : gset string;
  office : string;
  load : Z
}.

Definition add_load (m : t) : t :=
  mk (name m) (pos_norm m) (skills_set m) (office m) (load m + 1).
End Manager.

(** A record appended to [results]. *)
Module Result.
Record t := mk {
  guid : cell;
  ai_type : string;
  ai_lang : string;
  priority : Z;
  office : string;
  manager : string
}.
End Result.

(** [(office, segment, type, lang)] *)
Definition rr_key : Type := string * Segment * Intent * Lang.

(** The engine object: the three frames, the two canonical capital
    offices and the two pieces of mutable routing state. *)
Record Engine := mkEngine {
  enable_fallback : bool;
  tickets : list Ticket.t;
  managers : list Manager.t;
  units : list string;
  astana_office : string;
  almaty_office : string;
  rr_counters : gmap rr_key Z;
  unknown_loc_counter : Z
}.

Definition UNASSIGNED : string := "UNASSIGNED".
Definition CAPITAL_ESCALATION : string := "CAPITAL_ESCALATION".

(** ** pandas frames

    A subset of the managers frame is a list of rows, each with its index
    label.  The managers frame has the default index, so the label of a
    row is its position, and [.at[label, "load"]] reaches one row.  Two
    ways of masking differ on an empty frame:

    - [df[df[c] == v]], [isin] and [str.contains] build a boolean Series
      whatever its length, and [df[mask]] keeps the rows where it holds;
    - [df[c].apply(f)] does not call [f] on an empty Series and returns it
      with its [object] dtype; [df[...]] does not take an empty object
      Series for a boolean mask but for a list of column labels, an empty
      one, and returns a frame with no rows and no columns.

    Reading a column of a frame that has no columns raises [KeyError]. *)

Definition Row : Type := nat * Manager.t.

Inductive Frame :=
  | Rows (rs : list Row)
  | NoColumns.

Inductive exn :=
  | KeyError (column : string)
  | IndexError.

Inductive outcome (A : Type) :=
  | Ok (a : A)
  | Raise (x : exn).
Arguments Ok {A} a.
Arguments Raise {A} x.

#[global] Instance outcome_ret : MRet outcome := fun A a => Ok a.
#[global] Instance outcome_bind : MBind outcome := fun A B f x =>
  match x with
  | Ok a => f a
  | Raise x => Raise x
  end.

(** [self.managers] as a frame *)
Definition frame_of (ms : list Manager.t) : list Row := imap pair ms.

Definition rows (f : Frame) : list Row :=
  match f with
  | Rows rs => rs
  | NoColumns => []
  end.

(** [df.empty] *)
Definition empty (f : Frame) : bool :=
  match rows f with
  | [] => true
  | _ => false
  end.

(** [df[p(df[column])]] with a boolean Series *)
Definition mask (column : string) (p : Manager.t -> bool) (f : Frame) : outcome Frame :=
  match f with
  | Rows rs => Ok (Rows (List.filter (fun r => p r.2) rs))
  | NoColumns => Raise (KeyError column)
  end.

(** [df[df[column].apply(p)]] on a frame that has its columns *)
Definition apply_rows (p : Manager.t -> bool) (rs : list Row) : Frame :=
  match rs with
  | [] => NoColumns
  | _ => Rows (List.filter (fun r => p r.2) rs)
  end.

(** [df[df[column].apply(p)]] *)
Definition mask_apply (column : string) (p : Manager.t -> bool) (f : Frame) : outcome Frame :=
  match f with
  | Rows rs => Ok (apply_rows p rs)
  | NoColumns => Raise (KeyError column)
  end.

(** [df.iloc[i]] *)
Definition iloc (rs : list Row) (i : Z) : outcome Row :=
  match rs !! Z.to_nat i with
  | Some r => Ok r
  | None => Raise IndexError
  end.

Definition has_skill (skill : string) (m : Manager.t) : bool :=
  bool_decide (skill ∈ Manager.skills_set m).

(** ** Analysis *)

Definition kz_letters : list string :=
  ["ә"; "ғ"; "қ"; "ң"; "ө"; "ұ"; "ү"; "һ"; "і"; "І"].

Definition keywords : list (Intent * list string) :=
  [ (Fraud, ["мошенник"; "украли"; "фрод"; "взлом"]);
    (AppFailure, ["ошибка"; "баг"; "не работает"; "вылетает"]);
    (Claim, ["претензия"; "возврат"; "суд"; "компенсация"]);
    (DataChange, ["паспорт"; "данные"; "фио"; "смена"; "изменить"]);
    (Complaint, ["жалоба"; "ужасно"; "плохо"; "недоволен"]);
    (Spam, ["реклама"; "выиграли"; "приз"; "акция"]) ].

Definition segment_of (raw_seg : string) : Segment :=
  if Py.contains "VIP" raw_seg then VIP
  else if Py.contains "PRIORITY" raw_seg then PRIORITY
  else MASS.

Definition lang_of (text : string) : Lang :=
  if Py.has_char_of kz_letters text then KZ
  else if Py.has_latin_word text then ENG
  else RU.

Definition type_of (text : string) : Intent :=
  match List.find (fun kw => List.existsb (fun w => Py.contains w text) kw.2) keywords with
  | Some (cat, _) => cat
  | None => Consultation
  end.

Definition priority_of (t_type : Intent) (segment : Segment) : Z :=
  let priority :=
    match t_type with
    | Fraud | Claim => 9
    | Complaint | AppFailure => 7
    | _ => 3
    end in
  match segment with
  | VIP => Z.max priority 10
  | PRIORITY => Z.max priority 8
  | MASS => priority
  end.

Definition analyze_ticket (ticket : Ticket.t) : AI.t :=
  let text := Py.lower (py_str (get (Ticket.description ticket) "")) in
  let raw_seg := Py.upper (py_str (get (Ticket.segment ticket) "MASS")) in
  let segment := segment_of raw_seg in
  let t_type := type_of text in
  AI.mk t_type (lang_of text) (priority_of t_type segment) segment.

(** ** Offices *)

(** [_find_canonical_office]: the first unit whose lower-cased name
    contains the pattern, else the capitalised pattern. *)
Definition _find_canonical_office (us : list string) (pattern : string) : string :=
  match List.filter (fun off => Py.contains pattern (Py.lower off)) us with
  | off :: _ => off
  | [] => Py.capitalize pattern
  end.

Definition office_root (off : string) : string :=
  Py.strip (Py.replace "офис" "" (Py.lower off)).

(** The condition of the loop over the units in [get_office]. *)
Definition city_matches (city off : string) : bool :=
  let root := office_root off in
  negb (String.eqb root "") && (Py.contains root city || Py.contains city root).

Definition is_domestic (country_norm : string) : bool :=
  List.existsb (fun x => Py.contains x country_norm) ["казахстан"; "kazakhstan"; "kz"].

(** [get_office] returns the office and the engine with the counter of
    unknown locations advanced when it was used. *)
Definition set_unknown_loc_counter (e : Engine) (n : Z) : Engine :=
  mkEngine (enable_fallback e) (tickets e) (managers e) (units e)
           (astana_office e) (almaty_office e) (rr_counters e) n.

Definition get_office (e : Engine) (ticket : Ticket.t) : string * Engine :=
  let country := Py.lower (py_str (get (Ticket.country ticket) "")) in
  let country_norm := Py.keep_letters country in
  let city := Py.lower (py_str (get (Ticket.city ticket) "")) in
  match List.find (city_matches city) (units e) with
  | Some off => (off, e)
  | None =>
      if negb (is_domestic country_norm) then
        let office :=
          if unknown_loc_counter e mod 2 =? 0 then astana_office e else almaty_office e in
        (office, set_unknown_loc_counter e (unknown_loc_counter e + 1))
      else (astana_office e, e)
  end.

(** The state the constructor leaves: canonical offices looked up in the
    units, no counter yet. *)
Definition new_engine (ts : list Ticket.t) (ms : list Manager.t) (us : list string)
    (fallback : bool) : Engine :=
  mkEngine fallback ts ms us
           (_find_canonical_office us "астан") (_find_canonical_office us "алмат")
           ∅ 0.

(** ** Distribution *)

(** [self.managers[self.managers["office"] == office]] *)
Definition office_pool (e : Engine) (office : string) : Frame :=
  Rows (List.filter (fun r => String.eqb (Manager.office r.2) office) (frame_of (managers e))).

Definition chief_specialist (m : Manager.t) : bool :=
  Py.contains "глав" (Manager.pos_norm m) && Py.contains "спец" (Manager.pos_norm m).

(** The three gates, in the order of the code. *)
Definition pipeline (e : Engine) (office : string) (ai : AI.t) : outcome Frame :=
  let subset := office_pool e office in
  subset ← (if bool_decide (AI.segment ai ∈ [VIP; PRIORITY])
            then mask_apply "skills_set" (has_skill "VIP") subset
            else Ok subset);
  subset ← (if bool_decide (AI.type ai = DataChange)
            then mask "pos_norm" chief_specialist subset
            else Ok subset);
  if bool_decide (AI.lang ai ∈ [KZ; ENG])
  then mask_apply "skills_set" (has_skill (lang_name (AI.lang ai))) subset
  else Ok subset.

Definition in_capital (e : Engine) (m : Manager.t) : bool :=
  bool_decide (Manager.office m ∈ [astana_office e; almaty_office e]).

Definition capital_subset (e : Engine) : Frame :=
  apply_rows (has_skill "VIP") (List.filter (fun r => in_capital e r.2) (frame_of (managers e))).

(** VIP escalation to the capital: the new subset and the new office. *)
Definition escalation (e : Engine) (ai : AI.t) (office : string) (subset : Frame)
    : Frame * string :=
  if bool_decide (AI.segment ai = VIP) && empty subset
  then (capital_subset e, CAPITAL_ESCALATION)
  else (subset, office).

Definition fallback (e : Engine) (office : string) (subset : Frame) : Frame :=
  if empty subset && enable_fallback e then office_pool e office else subset.

(** [sort_values(["load", "name"])]: a stable sort on the pair. *)
Definition row_le (a b : Row) : bool :=
  (Manager.load a.2 <? Manager.load b.2) ||
  ((Manager.load a.2 =? Manager.load b.2) && String.leb (Manager.name a.2) (Manager.name b.2)).

Fixpoint insert_row (x : Row) (l : list Row) : list Row :=
  match l with
  | [] => [x]
  | y :: l' => if row_le x y then x :: l else y :: insert_row x l'
  end.

Definition sort_values (l : list Row) : list Row := foldr insert_row [] l.

Definition assign (e : Engine) (key : rr_key) (rr_idx : Z) (label : nat) : Engine :=
  mkEngine (enable_fallback e) (tickets e)
           (alter Manager.add_load label (managers e))
           (units e) (astana_office e) (almaty_office e)
           (<[key := rr_idx + 1]> (rr_counters e)) (unknown_loc_counter e).

(** The selection at the end of the loop body: the manager recorded, the
    label of the selected row, and the engine after the two updates. *)
Definition selector (e : Engine) (key : rr_key) (subset : Frame)
    : outcome (string * option nat * Engine) :=
  if negb (empty subset) then
    let sorted := sort_values (rows subset) in
    let top_2 := take 2 sorted in
    let rr_idx := default 0 (rr_counters e !! key) in
    selected ← iloc top_2 (rr_idx mod Z.of_nat (length top_2));
    Ok (Manager.name selected.2, Some selected.1, assign e key rr_idx selected.1)
  else Ok (UNASSIGNED, None, e).

(** What one iteration computed, kept next to the record it appends:
    the analysis, the office [get_office] returned, the subset after the
    three gates, the subset and the office after the escalation block,
    the subset after the fallback block and the label of the selected
    row. *)
Record Trace := mkTrace {
  tr_ai : AI.t;
  tr_resolved : string;
  tr_filtered : Frame;
  tr_escalated : Frame;
  tr_office : string;
  tr_subset : Frame;
  tr_selected : option nat;
  tr_result : Result.t
}.

Definition key_of (office : string) (ai : AI.t) : rr_key :=
  (office, AI.segment ai, AI.type ai, AI.lang ai).

Definition tr_key (tr : Trace) : rr_key := key_of (tr_office tr) (tr_ai tr).

(** The body of the loop of [distribute].  The engine is returned also
    when the body raises: [get_office] has run by then. *)
Definition distribute_step (e : Engine) (ticket : Ticket.t) : Engine * outcome Trace :=
  let ai := analyze_ticket ticket in
  let '(resolved, e1) := get_office e ticket in
  match pipeline e1 resolved ai with
  | Raise x => (e1, Raise x)
  | Ok filtered =>
      let '(escalated, office) := escalation e1 ai resolved filtered in
      let subset := fallback e1 office escalated in
      match selector e1 (key_of office ai) subset with
      | Raise x => (e1, Raise x)
      | Ok (manager_final, selected, e2) =>
          (e2, Ok (mkTrace ai resolved filtered escalated office subset selected
                     (Result.mk (get (Ticket.guid ticket) "N/A")
                        (intent_name (AI.type ai)) (lang_name (AI.lang ai))
                        (AI.priority ai) office manager_final)))
      end
  end.

(** The loop: the traces of the tickets processed, and the exception that
    stopped it, if any. *)
Fixpoint distribute_loop (e : Engine) (ts : list Ticket.t)
    : Engine * list Trace * option exn :=
  match ts with
  | [] => (e, [], None)
  | ticket :: ts' =>
      match distribute_step e ticket with
      | (e1, Raise x) => (e1, [], Some x)
      | (e1, Ok tr) =>
          let '(e2, trs, r) := distribute_loop e1 ts' in
          (e2, tr :: trs, r)
      end
  end.

(** [distribute]: the frame of results, unless an exception left the
    loop. *)
Definition distribute (e : Engine) : Engine * outcome (list Result.t) :=
  let '(e', trs, r) := distribute_loop e (tickets e) in
  (e', match r with
       | None => Ok (List.map tr_result trs)
       | Some x => Raise x
       end).

(** ** Notions used in the statements *)

(** [sub] occurs somewhere in [s]. *)
Definition occurs (sub s : string) : Prop :=
  exists pre post, s = pre +:+ sub +:+ post.

(** The order of [sort_values(["load", "name"])]. *)
Definition by_load_then_name (a b : Row) : Prop :=
  Manager.load a.2 < Manager.load b.2 \/
  (Manager.load a.2 = Manager.load b.2 /\
   String.leb (Manager.name a.2) (Manager.name b.2) = true).


(** The rows of a subset are rows of the managers frame, under their
    labels. *)
Definition part_of (ms : list Manager.t) (f : Frame) : Prop :=
  forall r, r ∈ rows f -> ms !! r.1 = Some r.2.



(** The name [_find_canonical_office] makes up when no unit matches. *)
Definition placeholder (us : list string) (pattern office : string) : Prop :=
  office = Py.capitalize pattern /\
  Forall (fun off => Py.contains pattern (Py.lower off) = false) us.

Definition unit_or_placeholder (us : list string) (office : string) : Prop :=
  office ∈ us \/ placeholder us "астан" office \/ placeholder us "алмат" office.

(** The capital offices are the ones the constructor looked up. *)
Definition canonical (e : Engine) : Prop :=
  astana_office e = _find_canonical_office (units e) "астан" /\
  almaty_office e = _find_canonical_office (units e) "алмат".




(** ** Sample data *)

Definition manager (n pos : string) (skills : list string) (off : string) (l : Z)
    : Manager.t :=
  Manager.mk n pos (list_to_set skills) off l.

Definition ticket (g d s co ci : string) : Ticket.t :=
  Ticket.mk (Some (Str g)) (Some (Str d)) (Some (Str s)) (Some (Str co)) (Some (Str ci)).

Definition no_trace : Trace :=
  mkTrace (AI.mk Consultation RU 0 MASS) "" NoColumns NoColumns "" NoColumns None
          (Result.mk NaN "" "" 0 "" "").

(** The trace of the first iteration of a run. *)
Definition first_trace (e : Engine) : Trace :=
  default no_trace (head (distribute_loop e (tickets e)).1.2).

Definition three_units : list string := ["Астана"; "Алматы"; "Караганда"].

(** Two managers of one office with the same load, and four tickets of
    one bucket for them. *)
Definition manager_A : Manager.t := manager "A" "спец" [] "Алматы" 0.
Definition manager_B : Manager.t := manager "B" "спец" [] "Алматы" 0.

Definition question (g : string) : Ticket.t :=
  ticket g "вопрос" "MASS" "Казахстан" "Алматы".


Definition tied_pair (n : nat) : Engine :=
  new_engine (take n [question "T1"; question "T2"; question "T3"; question "T4"])
             [manager_A; manager_B] three_units false.

(** A VIP client in Karaganda, where nobody serves VIP clients; the VIP
    manager sits in Astana. *)
Definition manager_K : Manager.t := manager "K" "спец" [] "Караганда" 0.
Definition manager_V : Manager.t := manager "V" "главный спец" ["VIP"] "Астана" 5.

Definition vip_in_karaganda : Engine :=
  new_engine [ticket "T1" "вопрос" "VIP" "Казахстан" "Караганда"]
             [manager_K; manager_V] three_units false.

(** A priority client in Karaganda: no escalation for this segment. *)
Definition priority_in_karaganda : Engine :=
  new_engine [ticket "T1" "вопрос" "Priority" "Казахстан" "Караганда"]
             [manager_K; manager_V] three_units false.

(** The same VIP client with the fallback on and no VIP manager
    anywhere. *)
Definition vip_with_fallback : Engine :=
  new_engine [ticket "T1" "вопрос" "VIP" "Казахстан" "Караганда"]
             [manager_K] three_units true.

(** A VIP client writing in English from Karaganda, an office without
    managers. *)
Definition english_vip : Engine :=
  new_engine [ticket "T1" "please help" "VIP" "Казахстан" "Караганда";
              ticket "T2" "вопрос" "MASS" "Казахстан" "Астана"]
             [manager_V] three_units false.

(** A ticket with an empty city. *)
Definition no_city : Engine :=
  new_engine [ticket "T1" "вопрос" "MASS" "Казахстан" ""] [manager_A]
             ["Алматы"; "Астана"] false.

(** Units without an office in Astana. *)
Definition no_astana : Engine :=
  new_engine [ticket "T1" "вопрос" "MASS" "Казахстан" "Караганда"] [manager_A]
             ["Алматы"] false.

(** ** The constructor's helpers *)

(** [s.split(sep)] for a separator of one character *)
Fixpoint str_split (sep : ascii) (s : string) : list string :=
  match s with
  | EmptyString => [EmptyString]
  | String c s' =>
      if Ascii.eqb c sep then EmptyString :: str_split sep s'
      else
        match str_split sep s' with
        | p :: ps => String c p :: ps
        | [] => [String c EmptyString]
        end
  end.

(** [_parse_skills]: the cell of the skills column as a set of tokens. *)
Definition _parse_skills (x : cell) : gset string :=
  match x with
  | NaN => ∅
  | Str _ =>
      let s := Py.strip (py_str x) in
      if String.eqb s "" || String.eqb (Py.lower s) "nan" then ∅
      else
        list_to_set
          (List.map (fun p => Py.upper (Py.strip p))
             (List.filter (fun p => negb (String.eqb (Py.strip p) ""))
                (str_split "," (Py.replace ";" "," s))))
  end.

(** The class attribute, in the order of the dict. *)
Definition COLUMN_ALIASES : list (string * list string) :=
  [ ("guid", ["guid клиента"; "guid"; "client_guid"; "id"]);
    ("description", ["описание"; "текст обращения"; "description"]);
    ("segment", ["сегмент клиента"; "сегмент"; "segment"]);
    ("country", ["страна"; "country"]);
    ("city", ["населенный пункт"; "город"; "city"; "населённый пункт"]);
    ("name", ["фио"; "менеджер"; "name"]);
    ("position", ["должность"; "позиция"; "position"]);
    ("skills", ["навыки"; "skills"]);
    ("load", ["количество обращений в работе"; "кол-во обращений в работе";
              "нагрузка"; "load"]);
    ("office", ["офис"; "бизнес-единица"; "unit"; "business_unit"]) ].

(** A header after [.str.strip().str.lower().str.replace("ё", "е")] and
    the replacement of the no-break space U+00A0 by a space. *)
Definition normalize_header (c : string) : string :=
  Py.replace (Py.bytes [0xC2; 0xA0]%N) " " (Py.replace "ё" "е" (Py.lower (Py.strip c))).

(** The first alias of the list that is a column: the inner loop of
    [_smart_normalize] up to its [break]. *)
Definition first_alias (columns aliases : list string) : option string :=
  List.find (fun alias => bool_decide (alias ∈ columns)) aliases.

(** One turn of the outer loop that fills [rename_map]. *)
Definition add_alias (columns : list string) (rename_map : gmap string string)
    (entry : string * list string) : gmap string string :=
  match first_alias columns entry.2 with
  | Some alias => <[alias := entry.1]> rename_map
  | None => rename_map
  end.

Definition rename_map_of (table : list (string * list string)) (columns : list string)
    : gmap string string :=
  foldl (add_alias columns) ∅ table.

(** [df.rename(columns=rename_map)] on one label *)
Definition rename (rename_map : gmap string string) (c : string) : string :=
  default c (rename_map !! c).

(** [_smart_normalize] on the labels of the columns: the new labels, or
    the ValueError with the set of missing columns. *)
Inductive normalized :=
  | Columns (columns : list string)
  | ValueError (missing : gset string).

Definition smart_normalize_with (table : list (string * list string))
    (columns required : list string) : normalized :=
  let columns := List.map normalize_header columns in
  let rename_map := rename_map_of table columns in
  let columns := List.map (rename rename_map) columns in
  let missing : gset string := list_to_set required ∖ list_to_set columns in
  if decide (missing = ∅) then Columns columns else ValueError missing.

Definition _smart_normalize : list string -> list string -> normalized :=
  smart_normalize_with COLUMN_ALIASES.

(** ** Further notions used in the statements *)

(** An optional gate: it lets everybody through when it is off. *)
Definition gate (active : bool) (p : Manager.t -> bool) (m : Manager.t) : bool :=
  negb active || p m.

(** The manager is of the office and passes the gates that the analysis
    switches on. *)
Definition passes (office : string) (ai : AI.t) (m : Manager.t) : bool :=
  String.eqb (Manager.office m) office &&
  gate (bool_decide (AI.segment ai ∈ [VIP; PRIORITY])) (has_skill "VIP") m &&
  gate (bool_decide (AI.type ai = DataChange)) chief_specialist m &&
  gate (bool_decide (AI.lang ai ∈ [KZ; ENG])) (has_skill (lang_name (AI.lang ai))) m.

(** The number of iterations of a run that selected a row under the
    bucket [key]. *)
Definition assigned_under (key : rr_key) (trs : list Trace) : nat :=
  length (List.filter
            (fun tr => bool_decide (tr_key tr = key /\ tr_selected tr <> None)) trs).

(** A row without its load. *)
Definition static (m : Manager.t) : string * string * gset string * string :=
  (Manager.name m, Manager.pos_norm m, Manager.skills_set m, Manager.office m).



(** The ticket has no city match among the units and no domestic
    country. *)
Definition unknown_location (us : list string) (ticket : Ticket.t) : bool :=
  match List.find (city_matches (Py.lower (py_str (get (Ticket.city ticket) "")))) us with
  | Some _ => false
  | None =>
      negb (is_domestic
              (Py.keep_letters (Py.lower (py_str (get (Ticket.country ticket) "")))))
  end.

(** Some word of the list occurs in the text. *)
Definition mentions (words : list string) (text : string) : Prop :=
  Exists (fun w => occurs w text) words.

(** Three letters a-z in a row occur in the text. *)
Definition latin_word_in (s : string) : Prop :=
  exists pre a b c post,
    s = pre +:+ String a (String b (String c post)) /\
    Py.is_az a = true /\ Py.is_az b = true /\ Py.is_az c = true.

(** The field is a column under its own name or under one of its
    aliases. *)
Definition present (table : list (string * list string)) (columns : list string)
    (field : string) : Prop :=
  field ∈ columns \/
  (exists aliases alias, (field, aliases) ∈ table /\ alias ∈ aliases /\ alias ∈ columns).

(** No alias is listed twice, and a field name is listed as an alias
    under that field only. *)
Definition well_formed (table : list (string * list string)) : Prop :=
  NoDup (concat (List.map snd table)) /\
  Forall (fun e => Forall (fun e' => e.1 ∈ e'.2 -> e.1 = e'.1) table) table.

(** The entry is the one whose first alias among the columns is
    [alias]. *)
Definition chooses (columns : list string) (alias : string)
    (entry : string * list string) : bool :=
  bool_decide (first_alias columns entry.2 = Some alias).

(** The condition of the loop of [get_office], as a proposition. *)
Definition matches_city (city off : string) : Prop :=
  office_root off <> "" /\
  (occurs (office_root off) city \/ occurs city (office_root off)).

(** The rows have the same load and the same name. *)
Definition same_key (x r : Row) : bool :=
  (Manager.load r.2 =? Manager.load x.2) &&
  String.eqb (Manager.name r.2) (Manager.name x.2).

(** The record is the one the loop builds for the ticket, up to office
    and manager. *)
Definition record_of (ticket : Ticket.t) (r : Result.t) : Prop :=
  Result.guid r = get (Ticket.guid ticket) "N/A" /\
  Result.ai_type r = intent_name (AI.type (analyze_ticket ticket)) /\
  Result.ai_lang r = lang_name (AI.lang (analyze_ticket ticket)) /\
  Result.priority r = AI.priority (analyze_ticket ticket).

(** The segment gate is off for the ticket, or the two gates after it
    are. *)
Definition reads_no_column (ticket : Ticket.t) : Prop :=
  AI.segment (analyze_ticket ticket) = MASS \/
  (AI.type (analyze_ticket ticket) <> DataChange /\ AI.lang (analyze_ticket ticket) = RU).

(** ** Further sample data *)

(** A VIP client in Karaganda and nobody who serves VIP clients. *)
Definition nobody_for_vip : Engine :=
  new_engine [ticket "T1" "вопрос" "VIP" "Казахстан" "Караганда"]
             [manager_K] three_units false.



(** The headers of a managers sheet, and the fields the constructor
    requires of it. *)
Definition managers_sheet : list string :=
  ["ФИО"; " Должность "; "Навыки"; "Количество обращений в работе"; "Офис"].

Definition managers_fields : list string :=
  ["name"; "position"; "skills"; "load"; "office"].

(** * Properties *)

(** ** The string operations on sample text *)

Example lower_astana : Py.lower "Офис АСТАНА-2 Ёж" = "офис астана-2 ёж".
Proof. reflexivity. Qed.

Example upper_vip : Py.upper "non-vip Клиент" = "NON-VIP КЛИЕНТ".
Proof. reflexivity. Qed.

Example lower_kz : Py.lower "ҚАЗАҚСТАН Әлем І" = "қазақстан әлем і".
Proof. reflexivity. Qed.

Example capitalize_astan : Py.capitalize "астан" = "Астан".
Proof. reflexivity. Qed.

Example strip_office : Py.strip (Py.replace "офис" "" (Py.lower " Офис Алматы ")) = "алматы".
Proof. reflexivity. Qed.

Example keep_letters_kz : Py.keep_letters "республика казахстан (kz) 1ё" = "республикаказахстанkz".
Proof. reflexivity. Qed.

Example latin_word : Py.has_latin_word "ab привет cd xyz" = true /\ Py.has_latin_word "ab cd ef 12" = false.
Proof. split; reflexivity. Qed.

(** ** Facts about the string operations *)

Lemma prefix_iff (sub s : string) :
  String.prefix sub s = true <-> exists post, s = sub +:+ post.
Proof.
  revert s. induction sub as [|c sub IH]; intros s; simpl.
  - destruct s; simpl; split; eauto.
  - destruct s as [|d s]; simpl.
    + split; [discriminate | intros [post H]; discriminate].
    + destruct (Ascii.ascii_dec c d) as [->|Hne].
      * rewrite IH. split; intros [post H]; exists post.
        -- rewrite H. reflexivity.
        -- change (String d s = String d (sub +:+ post)) in H. congruence.
      * split; [discriminate | intros [post H]].
        change (String d s = String c (sub +:+ post)) in H. congruence.
Qed.

Lemma contains_iff (sub s : string) : Py.contains sub s = true <-> occurs sub s.
Proof.
  induction s as [|c s IH]; cbn [Py.contains].
  - rewrite orb_false_r, prefix_iff. split.
    + intros [post H]. exists EmptyString, post. exact H.
    + intros ([|? pre] & post & H); [exists post; exact H | discriminate].
  - rewrite orb_true_iff, prefix_iff, IH. split.
    + intros [[post H] | (pre & post & H)].
      * exists EmptyString, post. exact H.
      * exists (String c pre), post. rewrite H. reflexivity.
    + intros ([|d pre] & post & H).
      * left. exists post. exact H.
      * right. exists pre, post.
        change (String c s = String d (pre +:+ sub +:+ post)) in H. congruence.
Qed.

Lemma contains_empty (s : string) : Py.contains "" s = true.
Proof. destruct s; reflexivity. Qed.

(** C10: the bucket depends on the upper-cased segment text alone, by
    containment: VIP if "VIP" occurs in it anywhere, so that "NON-VIP"
    is a VIP label, else PRIORITY if "PRIORITY" occurs in it, else MASS;
    a ticket without the segment field is MASS. *)
Theorem segment_bucket_by_containment (ticket : Ticket.t) :
  let raw_seg := Py.upper (py_str (get (Ticket.segment ticket) "MASS")) in
  let bucket := AI.segment (analyze_ticket ticket) in
  (bucket = VIP <-> occurs "VIP" raw_seg) /\
  (bucket = PRIORITY <-> ~ occurs "VIP" raw_seg /\ occurs "PRIORITY" raw_seg) /\
  (bucket = MASS <-> ~ occurs "VIP" raw_seg /\ ~ occurs "PRIORITY" raw_seg) /\
  (forall g d co ci,
      AI.segment (analyze_ticket (Ticket.mk g d (Some (Str "NON-VIP")) co ci)) = VIP) /\
  (forall g d co ci, AI.segment (analyze_ticket (Ticket.mk g d None co ci)) = MASS).
Proof.
  cbv zeta. unfold analyze_ticket, segment_of. cbn [AI.segment].
  rewrite <- !contains_iff.
  destruct (Py.contains "VIP" _) eqn:Hv; [|destruct (Py.contains "PRIORITY" _) eqn:Hp].
  all: repeat split; try done; try (intros []; done); try (intros; reflexivity).
Qed.

(** ** The sort of the selector *)

Lemma row_le_iff (a b : Row) : row_le a b = true <-> by_load_then_name a b.
Proof.
  unfold row_le, by_load_then_name.
  rewrite orb_true_iff, andb_true_iff, Z.ltb_lt, Z.eqb_eq. tauto.
Qed.

Lemma string_leb_trans (a b c : string) :
  String.leb a b = true -> String.leb b c = true -> String.leb a c = true.
Proof.
  unfold String.leb. revert b c.
  induction a as [|x a IH]; intros [|y b] [|z c]; simpl; try done.
  unfold Ascii.compare.
  destruct (N.compare_spec (N_of_ascii x) (N_of_ascii y));
    destruct (N.compare_spec (N_of_ascii y) (N_of_ascii z));
    destruct (N.compare_spec (N_of_ascii x) (N_of_ascii z));
    try done; try lia.
  apply IH.
Qed.

Lemma by_load_then_name_trans (a b c : Row) :
  by_load_then_name a b -> by_load_then_name b c -> by_load_then_name a c.
Proof.
  unfold by_load_then_name. intros [?|[? Hab]] [?|[? Hbc]]; try (left; lia).
  right. split; [lia | by eapply string_leb_trans].
Qed.

Lemma by_load_then_name_total (a b : Row) :
  by_load_then_name a b \/ by_load_then_name b a.
Proof.
  unfold by_load_then_name.
  destruct (String.leb_total (Manager.name a.2) (Manager.name b.2));
    destruct (Z.lt_trichotomy (Manager.load a.2) (Manager.load b.2)) as [?|[?|?]];
    auto.
Qed.

Lemma row_le_false (a b : Row) : row_le a b = false -> by_load_then_name b a.
Proof.
  intros H. destruct (by_load_then_name_total a b) as [Hab|]; [|done].
  apply row_le_iff in Hab. congruence.
Qed.

Lemma insert_row_perm (x : Row) (l : list Row) : insert_row x l ≡ₚ x :: l.
Proof.
  induction l as [|y l IH]; simpl; [done|].
  destruct (row_le x y); [done|]. rewrite IH. apply Permutation_swap.
Qed.

Lemma sort_values_perm (l : list Row) : sort_values l ≡ₚ l.
Proof.
  induction l as [|x l IH]; simpl; [done|].
  rewrite insert_row_perm. by rewrite IH.
Qed.

Lemma insert_row_sorted (x : Row) (l : list Row) :
  StronglySorted by_load_then_name l -> StronglySorted by_load_then_name (insert_row x l).
Proof.
  induction 1 as [|y l Hl IH Hy]; simpl.
  - repeat constructor.
  - destruct (row_le x y) eqn:Hxy.
    + apply row_le_iff in Hxy. constructor; [by constructor|].
      constructor; [done|].
      eapply Forall_impl; [exact Hy|]. intros z Hz.
      by eapply by_load_then_name_trans.
    + constructor; [done|].
      rewrite insert_row_perm. constructor; [|done].
      by apply row_le_false.
Qed.

Lemma sort_values_sorted (l : list Row) : StronglySorted by_load_then_name (sort_values l).
Proof.
  induction l as [|x l IH]; simpl; [constructor|]. by apply insert_row_sorted.
Qed.

Lemma sort_values_length (l : list Row) : length (sort_values l) = length l.
Proof. apply Permutation_length, sort_values_perm. Qed.

(** ** The parts of the loop body *)

Lemma get_office_frame (e : Engine) (ticket : Ticket.t) :
  let e1 := (get_office e ticket).2 in
  managers e1 = managers e /\ rr_counters e1 = rr_counters e /\
  units e1 = units e /\ astana_office e1 = astana_office e /\
  almaty_office e1 = almaty_office e /\ enable_fallback e1 = enable_fallback e.
Proof.
  unfold get_office.
  destruct (List.find _ (units e)); [done|].
  destruct (negb _); done.
Qed.

Lemma empty_rows (f : Frame) : empty f = true <-> rows f = [].
Proof. unfold empty. destruct (rows f); split; done. Qed.

(** [iloc] is always in range in the selector. *)
Lemma selector_index (l : list Row) (c : Z) :
  l <> [] -> exists r, iloc l (c mod Z.of_nat (length l)) = Ok r /\
                       l !! Z.to_nat (c mod Z.of_nat (length l)) = Some r.
Proof.
  intros Hl. unfold iloc.
  assert (0 <= c mod Z.of_nat (length l) < Z.of_nat (length l)) as Hr.
  { apply Z.mod_pos_bound. destruct l; [done | simpl; lia]. }
  destruct (lookup_lt_is_Some_2 l (Z.to_nat (c mod Z.of_nat (length l)))) as [r Hr'];
    [lia|].
  exists r. by rewrite Hr'.
Qed.

Lemma take_2_nonempty (l : list Row) : l <> [] -> take 2 (sort_values l) <> [].
Proof.
  intros Hl Ht. apply (f_equal length) in Ht.
  rewrite length_take, sort_values_length in Ht.
  destruct l; [done | simpl in Ht; lia].
Qed.

Lemma selector_nonempty (e : Engine) (key : rr_key) (subset : Frame) :
  empty subset = false ->
  let top_2 := take 2 (sort_values (rows subset)) in
  let rr_idx := default 0 (rr_counters e !! key) in
  exists selected,
    top_2 !! Z.to_nat (rr_idx mod Z.of_nat (length top_2)) = Some selected /\
    selector e key subset =
      Ok (Manager.name selected.2, Some selected.1, assign e key rr_idx selected.1).
Proof.
  intros He. cbv zeta. unfold selector. rewrite He. cbn [negb].
  assert (rows subset <> []) as Hne.
  { intros Hr. apply empty_rows in Hr. congruence. }
  destruct (selector_index (take 2 (sort_values (rows subset)))
              (default 0 (rr_counters e !! key)) (take_2_nonempty _ Hne))
    as (r & Hi & Hl).
  exists r. split; [done|]. by rewrite Hi.
Qed.

Lemma selector_empty (e : Engine) (key : rr_key) (subset : Frame) :
  empty subset = true -> selector e key subset = Ok (UNASSIGNED, None, e).
Proof. intros He. unfold selector. by rewrite He. Qed.

(** The selector never raises. *)
Lemma selector_total (e : Engine) (key : rr_key) (subset : Frame) :
  exists res, selector e key subset = Ok res.
Proof.
  destruct (empty subset) eqn:He.
  - rewrite selector_empty by done. eauto.
  - destruct (selector_nonempty e key subset He) as (r & _ & ->). eauto.
Qed.

(** What a completed iteration computed. *)
Lemma distribute_step_inv (e e' : Engine) (ticket : Ticket.t) (tr : Trace) :
  distribute_step e ticket = (e', Ok tr) ->
  let e1 := (get_office e ticket).2 in
  tr_ai tr = analyze_ticket ticket /\
  tr_resolved tr = (get_office e ticket).1 /\
  pipeline e1 (tr_resolved tr) (tr_ai tr) = Ok (tr_filtered tr) /\
  escalation e1 (tr_ai tr) (tr_resolved tr) (tr_filtered tr) = (tr_escalated tr, tr_office tr) /\
  tr_subset tr = fallback e1 (tr_office tr) (tr_escalated tr) /\
  selector e1 (tr_key tr) (tr_subset tr) =
    Ok (Result.manager (tr_result tr), tr_selected tr, e') /\
  Result.office (tr_result tr) = tr_office tr /\
  Result.guid (tr_result tr) = get (Ticket.guid ticket) "N/A".
Proof.
  unfold distribute_step. destruct (get_office e ticket) as [resolved e1] eqn:Hg.
  destruct (pipeline e1 resolved (analyze_ticket ticket)) as [filtered|] eqn:Hp; [|done].
  destruct (escalation e1 _ resolved filtered) as [escalated office] eqn:He.
  destruct (selector e1 _ _) as [[[m sel] e2]|] eqn:Hs; [|done].
  intros [= <- <-]. cbn. repeat split; done.
Qed.

(** An iteration completes as soon as the three gates do. *)
Lemma distribute_step_ok (e : Engine) (ticket : Ticket.t) (filtered : Frame) :
  pipeline (get_office e ticket).2 (get_office e ticket).1 (analyze_ticket ticket) = Ok filtered ->
  exists e' tr, distribute_step e ticket = (e', Ok tr).
Proof.
  unfold distribute_step. destruct (get_office e ticket) as [resolved e1]. cbn.
  intros ->. destruct (escalation e1 _ resolved filtered) as [escalated office].
  destruct (selector_total e1 (key_of office (analyze_ticket ticket))
              (fallback e1 office escalated)) as ([[m sel] e2] & ->).
  eauto.
Qed.

(** ** Frames are parts of the managers frame *)

Lemma elem_of_frame_of (ms : list Manager.t) (r : Row) :
  r ∈ frame_of ms <-> ms !! r.1 = Some r.2.
Proof.
  unfold frame_of. rewrite elem_of_lookup_imap. split.
  - intros (i & m & -> & H). done.
  - intros H. exists r.1, r.2. by destruct r.
Qed.

Lemma elem_of_filter_rows (p : Row -> bool) (l : list Row) (r : Row) :
  r ∈ List.filter p l <-> r ∈ l /\ p r = true.
Proof. rewrite !list_elem_of_In. apply filter_In. Qed.

Lemma rows_apply_rows (p : Manager.t -> bool) (rs : list Row) :
  rows (apply_rows p rs) = List.filter (fun r => p r.2) rs.
Proof. by destruct rs. Qed.

Lemma part_of_filter (ms : list Manager.t) (p : Row -> bool) (rs : list Row) :
  part_of ms (Rows rs) -> part_of ms (Rows (List.filter p rs)).
Proof. intros H r Hr. apply elem_of_filter_rows in Hr as [Hr _]. by apply H. Qed.

Lemma part_of_frame_of (ms : list Manager.t) : part_of ms (Rows (frame_of ms)).
Proof. intros r. apply elem_of_frame_of. Qed.

Lemma part_of_no_columns (ms : list Manager.t) : part_of ms NoColumns.
Proof. intros r Hr. by apply elem_of_nil in Hr. Qed.

Lemma part_of_apply_rows (ms : list Manager.t) (p : Manager.t -> bool) (rs : list Row) :
  part_of ms (Rows rs) -> part_of ms (apply_rows p rs).
Proof.
  intros H r. rewrite rows_apply_rows. intros Hr.
  apply elem_of_filter_rows in Hr as [Hr _]. by apply H.
Qed.

Lemma part_of_mask (ms : list Manager.t) c p (f g : Frame) :
  part_of ms f -> mask c p f = Ok g -> part_of ms g.
Proof.
  destruct f as [rs|]; [|done]. intros H [= <-]. by apply part_of_filter.
Qed.

Lemma part_of_mask_apply (ms : list Manager.t) c p (f g : Frame) :
  part_of ms f -> mask_apply c p f = Ok g -> part_of ms g.
Proof.
  destruct f as [rs|]; [|done]. intros H [= <-]. by apply part_of_apply_rows.
Qed.

Lemma part_of_office_pool (e : Engine) (office : string) :
  part_of (managers e) (office_pool e office).
Proof. apply part_of_filter, part_of_frame_of. Qed.

Lemma part_of_capital_subset (e : Engine) : part_of (managers e) (capital_subset e).
Proof. apply part_of_apply_rows, part_of_filter, part_of_frame_of. Qed.

Lemma part_of_gate (ms : list Manager.t) (b : bool) c p (f g : Frame) :
  part_of ms f ->
  (if b then mask c p f else Ok f) = Ok g -> part_of ms g.
Proof. destruct b; [apply part_of_mask | by intros ? [= <-]]. Qed.

Lemma part_of_gate_apply (ms : list Manager.t) (b : bool) c p (f g : Frame) :
  part_of ms f ->
  (if b then mask_apply c p f else Ok f) = Ok g -> part_of ms g.
Proof. destruct b; [apply part_of_mask_apply | by intros ? [= <-]]. Qed.

Lemma part_of_pipeline (e : Engine) (office : string) (ai : AI.t) (f : Frame) :
  pipeline e office ai = Ok f -> part_of (managers e) f.
Proof.
  unfold pipeline. intros H.
  pose proof (part_of_office_pool e office) as H0.
  destruct (if bool_decide (AI.segment ai ∈ _) then _ else _) as [f1|] eqn:H1; [|done].
  apply (part_of_gate_apply _ _ _ _ _ _ H0) in H1. cbn in H.
  destruct (if bool_decide (AI.type ai = _) then _ else _) as [f2|] eqn:H2; [|done].
  apply (part_of_gate _ _ _ _ _ _ H1) in H2. cbn in H.
  exact (part_of_gate_apply _ _ _ _ _ _ H2 H).
Qed.

Lemma part_of_subset (e e' : Engine) (ticket : Ticket.t) (tr : Trace) :
  distribute_step e ticket = (e', Ok tr) -> part_of (managers e) (tr_subset tr).
Proof.
  intros H. apply distribute_step_inv in H as (_ & _ & Hp & He & Hf & _).
  destruct (get_office_frame e ticket) as (Hm & _). cbv zeta in *.
  set (e1 := (get_office e ticket).2) in *. rewrite <- Hm.
  apply part_of_pipeline in Hp.
  assert (part_of (managers e1) (tr_escalated tr)) as Hesc.
  { unfold escalation in He.
    destruct (bool_decide _ && empty _); injection He as <- _;
      [apply part_of_capital_subset | done]. }
  rewrite Hf. unfold fallback.
  destruct (empty _ && enable_fallback e1); [apply part_of_office_pool | done].
Qed.

Lemma capital_subset_get_office (e : Engine) (ticket : Ticket.t) :
  capital_subset (get_office e ticket).2 = capital_subset e.
Proof.
  destruct (get_office_frame e ticket) as (Hm & _ & _ & Ha & Hb & _).
  unfold capital_subset, in_capital. cbv zeta in *. by rewrite Hm, Ha, Hb.
Qed.

Lemma elem_of_capital_subset (e : Engine) (r : Row) :
  r ∈ rows (capital_subset e) <->
  managers e !! r.1 = Some r.2 /\
  Manager.office r.2 ∈ [astana_office e; almaty_office e] /\
  "VIP" ∈ Manager.skills_set r.2.
Proof.
  unfold capital_subset. rewrite rows_apply_rows, !elem_of_filter_rows, elem_of_frame_of.
  unfold has_skill, in_capital. rewrite !bool_decide_eq_true. tauto.
Qed.

(** ** The selection *)

(** An iteration whose final subset is not empty. *)
Lemma step_nonempty (e e' : Engine) (ticket : Ticket.t) (tr : Trace) :
  distribute_step e ticket = (e', Ok tr) ->
  empty (tr_subset tr) = false ->
  let top_2 := take 2 (sort_values (rows (tr_subset tr))) in
  let counter := default 0 (rr_counters e !! tr_key tr) in
  exists selected : Row,
    top_2 !! Z.to_nat (counter mod Z.of_nat (length top_2)) = Some selected /\
    tr_selected tr = Some selected.1 /\
    Result.manager (tr_result tr) = Manager.name selected.2 /\
    rr_counters e' = <[tr_key tr := counter + 1]> (rr_counters e) /\
    managers e' = alter Manager.add_load selected.1 (managers e) /\
    managers e !! selected.1 = Some selected.2.
Proof.
  intros Hstep Hne. cbv zeta.
  pose proof (part_of_subset _ _ _ _ Hstep) as Hpart.
  pose proof (distribute_step_inv _ _ _ _ Hstep) as (_ & _ & _ & _ & _ & Hsel & _).
  destruct (get_office_frame e ticket) as (Hm & Hrr & _). cbv zeta in *.
  set (e1 := (get_office e ticket).2) in *.
  destruct (selector_nonempty e1 (tr_key tr) (tr_subset tr) Hne) as (sel & Hl & Hs).
  cbv zeta in *. rewrite Hs in Hsel. injection Hsel as Hname Hlab He'.
  rewrite Hrr in *.
  exists sel. repeat split; try done.
  - rewrite <- He', <- Hrr. reflexivity.
  - rewrite <- He', <- Hm. reflexivity.
  - apply Hpart. rewrite <- sort_values_perm.
    eapply (subseteq_take 2), list_elem_of_lookup_2, Hl.
Qed.

(** An iteration whose final subset is empty. *)
Lemma step_empty (e e' : Engine) (ticket : Ticket.t) (tr : Trace) :
  distribute_step e ticket = (e', Ok tr) ->
  empty (tr_subset tr) = true ->
  Result.manager (tr_result tr) = UNASSIGNED /\
  tr_selected tr = None /\
  managers e' = managers e /\
  rr_counters e' = rr_counters e.
Proof.
  intros Hstep He.
  apply distribute_step_inv in Hstep as (_ & _ & _ & _ & _ & Hsel & _).
  destruct (get_office_frame e ticket) as (Hm & Hrr & _). cbv zeta in *.
  rewrite selector_empty in Hsel by done. injection Hsel as <- <- <-. done.
Qed.



(** C9: with an empty final subset the record says UNASSIGNED, and the
    iteration leaves every round-robin counter and the whole managers
    frame, loads included, as they were: the engine is the one
    [get_office] returned. *)
Theorem empty_subset_unassigned (e e' : Engine) (ticket : Ticket.t) (tr : Trace) :
  distribute_step e ticket = (e', Ok tr) ->
  empty (tr_subset tr) = true ->
  Result.manager (tr_result tr) = UNASSIGNED /\
  tr_selected tr = None /\
  managers e' = managers e /\
  rr_counters e' = rr_counters e /\
  e' = (get_office e ticket).2.
Proof.
  intros Hstep He. destruct (step_empty _ _ _ _ Hstep He) as (? & ? & ? & ?).
  repeat split; try done.
  apply distribute_step_inv in Hstep as (_ & _ & _ & _ & _ & Hsel & _).
  rewrite selector_empty in Hsel by done. by injection Hsel.
Qed.

Lemma empty_subset_unassigned_witness :
  let e := priority_in_karaganda in
  let ticket := ticket "T1" "вопрос" "Priority" "Казахстан" "Караганда" in
  let e' := (distribute_step e ticket).1 in
  let tr := first_trace e in
  distribute_step e ticket = (e', Ok tr) /\
  empty (tr_subset tr) = true /\
  Result.manager (tr_result tr) = UNASSIGNED /\
  tr_selected tr = None /\
  managers e' = managers e /\
  rr_counters e' = rr_counters e /\
  e' = (get_office e ticket).2.
Proof.
  cbv zeta.
  assert (distribute_step priority_in_karaganda
            (ticket "T1" "вопрос" "Priority" "Казахстан" "Караганда") =
          ((distribute_step priority_in_karaganda
              (ticket "T1" "вопрос" "Priority" "Казахстан" "Караганда")).1,
           Ok (first_trace priority_in_karaganda))) as Hstep
    by (vm_compute; reflexivity).
  assert (empty (tr_subset (first_trace priority_in_karaganda)) = true) as He
    by (vm_compute; reflexivity).
  split; [exact Hstep|]. split; [exact He|].
  exact (empty_subset_unassigned _ _ _ _ Hstep He).
Defined.

(** C5: the escalation block runs exactly when the bucket is VIP and the
    three gates left nothing.  It then replaces the subset by the
    managers of the two capital offices whose skills contain "VIP",
    whatever the resolved office was, and the office by the marker,
    also when no such manager exists.  In every other case, in particular
    for a bucket other than VIP, subset and office stay as they were. *)
Theorem escalation_policy (e e' : Engine) (ticket : Ticket.t) (tr : Trace) :
  distribute_step e ticket = (e', Ok tr) ->
  let escalates := AI.segment (tr_ai tr) = VIP /\ empty (tr_filtered tr) = true in
  pipeline (get_office e ticket).2 (tr_resolved tr) (tr_ai tr) = Ok (tr_filtered tr) /\
  Result.office (tr_result tr) = tr_office tr /\
  (escalates ->
     tr_office tr = CAPITAL_ESCALATION /\
     tr_escalated tr = capital_subset e /\
     forall r, r ∈ rows (tr_escalated tr) <->
               managers e !! r.1 = Some r.2 /\
               Manager.office r.2 ∈ [astana_office e; almaty_office e] /\
               "VIP" ∈ Manager.skills_set r.2) /\
  (~ escalates -> tr_office tr = tr_resolved tr /\ tr_escalated tr = tr_filtered tr) /\
  (AI.segment (tr_ai tr) <> VIP ->
     tr_office tr = tr_resolved tr /\ tr_escalated tr = tr_filtered tr).
Proof.
  intros Hstep. cbv zeta.
  apply distribute_step_inv in Hstep as (_ & _ & Hp & He & _ & _ & Ho & _).
  cbv zeta in *. unfold escalation in He. rewrite capital_subset_get_office in He.
  split; [done|]. split; [done|].
  destruct (bool_decide (AI.segment (tr_ai tr) = VIP)) eqn:Hv;
    [apply bool_decide_eq_true in Hv | apply bool_decide_eq_false in Hv];
    (destruct (empty (tr_filtered tr)) eqn:Hemp); cbn in He; injection He as <- <-.
  - split; [|split]; [|intros []; by split | done].
    intros _. split; [done|]. split; [done|]. apply elem_of_capital_subset.
  - split; [by intros [_ ?] | by split].
  - split; [by intros [? _] | by split].
  - split; [by intros [? _] | by split].
Qed.

Lemma escalation_policy_witness :
  let e := vip_in_karaganda in
  let ticket := ticket "T1" "вопрос" "VIP" "Казахстан" "Караганда" in
  let tr := first_trace e in
  distribute_step e ticket = ((distribute_step e ticket).1, Ok tr) /\
  (AI.segment (tr_ai tr) = VIP /\ empty (tr_filtered tr) = true) /\
  tr_resolved tr = "Караганда" /\
  Result.office (tr_result tr) = CAPITAL_ESCALATION /\
  tr_escalated tr = capital_subset e /\
  rows (tr_escalated tr) = [(1%nat, manager_V)].
Proof.
  cbv zeta.
  assert (distribute_step vip_in_karaganda
            (ticket "T1" "вопрос" "VIP" "Казахстан" "Караганда") =
          ((distribute_step vip_in_karaganda
              (ticket "T1" "вопрос" "VIP" "Казахстан" "Караганда")).1,
           Ok (first_trace vip_in_karaganda))) as Hstep
    by (vm_compute; reflexivity).
  assert (AI.segment (tr_ai (first_trace vip_in_karaganda)) = VIP /\
          empty (tr_filtered (first_trace vip_in_karaganda)) = true) as Hesc
    by (split; vm_compute; reflexivity).
  split; [exact Hstep|]. split; [exact Hesc|].
  destruct (escalation_policy _ _ _ _ Hstep) as (_ & Ho & Hyes & _).
  destruct (Hyes Hesc) as (Hm & Hc & _).
  split; [vm_compute; reflexivity|].
  split; [by rewrite Ho|]. split; [exact Hc|].
  rewrite Hc. vm_compute. reflexivity.
Defined.

(** ** The loop *)

Lemma selector_managers (e e' : Engine) (key : rr_key) (subset : Frame) m sel :
  selector e key subset = Ok (m, sel, e') ->
  managers e' = match sel with
                | Some label => alter Manager.add_load label (managers e)
                | None => managers e
                end /\
  units e' = units e /\ astana_office e' = astana_office e /\
  almaty_office e' = almaty_office e /\ enable_fallback e' = enable_fallback e.
Proof.
  destruct (empty subset) eqn:He.
  - rewrite selector_empty by done. by intros [= <- <- <-].
  - destruct (selector_nonempty e key subset He) as (r & _ & ->).
    by intros [= <- <- <-].
Qed.

(** An iteration changes the managers frame in one place at most: the
    load of the selected row. *)
Lemma distribute_step_managers (e e' : Engine) (ticket : Ticket.t) (o : outcome Trace) :
  distribute_step e ticket = (e', o) ->
  managers e' = match o with
                | Ok tr => match tr_selected tr with
                           | Some label => alter Manager.add_load label (managers e)
                           | None => managers e
                           end
                | Raise _ => managers e
                end /\
  units e' = units e /\ astana_office e' = astana_office e /\
  almaty_office e' = almaty_office e /\ enable_fallback e' = enable_fallback e.
Proof.
  destruct (get_office_frame e ticket) as (Hm & _ & Hu & Ha & Hb & Hf).
  cbv zeta in *. destruct o as [tr|x].
  - intros H. apply distribute_step_inv in H as (_ & _ & _ & _ & _ & Hs & _).
    apply selector_managers in Hs as (-> & -> & -> & -> & ->).
    by rewrite Hm.
  - unfold distribute_step. destruct (get_office e ticket) as [resolved e1]. cbn in *.
    destruct (pipeline e1 resolved _) as [filtered|]; [|by intros [= <- _]].
    destruct (escalation e1 _ resolved filtered) as [escalated office].
    destruct (selector e1 _ _) as [[[m sel] e2]|]; [done | by intros [= <- _]].
Qed.

Lemma distribute_loop_cons (e : Engine) (ticket : Ticket.t) (ts : list Ticket.t) :
  distribute_loop e (ticket :: ts) =
  match distribute_step e ticket with
  | (e1, Raise x) => (e1, [], Some x)
  | (e1, Ok tr) => let '(e2, trs, r) := distribute_loop e1 ts in (e2, tr :: trs, r)
  end.
Proof. reflexivity. Qed.


(** The loop stops only on an exception: without one, every ticket has
    its trace, in order. *)
Lemma distribute_loop_complete (e : Engine) (ts : list Ticket.t) :
  (distribute_loop e ts).2 = None ->
  List.map (fun tr => Result.guid (tr_result tr)) (distribute_loop e ts).1.2 =
  List.map (fun t => get (Ticket.guid t) "N/A") ts.
Proof.
  revert e. induction ts as [|t ts IH]; intros e; [done|].
  rewrite distribute_loop_cons.
  destruct (distribute_step e t) as [e1 [tr|x]] eqn:Hs; [|done].
  specialize (IH e1). destruct (distribute_loop e1 ts) as [[e2 trs] r]. cbn in *.
  intros Hr. rewrite (IH Hr).
  apply distribute_step_inv in Hs as (_ & _ & _ & _ & _ & _ & _ & ->). done.
Qed.







(** ** Offices *)

Lemma filter_nil_Forall {A} (p : A -> bool) (l : list A) :
  List.filter p l = [] -> Forall (fun x => p x = false) l.
Proof.
  induction l as [|x l IH]; cbn; [constructor|].
  destruct (p x) eqn:Hx; [done|]. intros H. constructor; auto.
Qed.

Lemma find_canonical_office_cases (us : list string) (pattern : string) :
  _find_canonical_office us pattern ∈ us \/
  placeholder us pattern (_find_canonical_office us pattern).
Proof.
  unfold _find_canonical_office, placeholder.
  destruct (List.filter _ us) as [|off l] eqn:Hf.
  - right. split; [done|]. by apply filter_nil_Forall in Hf.
  - left. assert (off ∈ List.filter (fun off => Py.contains pattern (Py.lower off)) us) as Hin.
    { rewrite Hf. left. }
    rewrite list_elem_of_In in Hin. apply filter_In in Hin as [Hin _].
    by apply list_elem_of_In.
Qed.

Lemma get_office_cases (e : Engine) (ticket : Ticket.t) :
  (get_office e ticket).1 ∈ units e \/
  (get_office e ticket).1 = astana_office e \/
  (get_office e ticket).1 = almaty_office e.
Proof.
  unfold get_office.
  destruct (List.find _ (units e)) as [off|] eqn:Hf.
  - left. apply find_some in Hf as [Hin _]. by apply list_elem_of_In.
  - right. destruct (negb _); [|by left].
    destruct (_ =? 0); cbn; auto.
Qed.

Lemma get_office_canonical (e : Engine) (ticket : Ticket.t) :
  canonical e -> unit_or_placeholder (units e) (get_office e ticket).1.
Proof.
  intros [Ha Hb]. unfold unit_or_placeholder.
  destruct (get_office_cases e ticket) as [H|[H|H]]; [by left|..]; rewrite H.
  - rewrite Ha. destruct (find_canonical_office_cases (units e) "астан"); auto.
  - rewrite Hb. destruct (find_canonical_office_cases (units e) "алмат"); auto.
Qed.

Lemma distribute_step_canonical (e e' : Engine) (ticket : Ticket.t) (o : outcome Trace) :
  distribute_step e ticket = (e', o) -> canonical e -> canonical e'.
Proof.
  intros H. apply distribute_step_managers in H as (_ & Hu & Ha & Hb & _).
  unfold canonical. by rewrite Hu, Ha, Hb.
Qed.

Lemma distribute_step_offices (e e' : Engine) (ticket : Ticket.t) (tr : Trace) :
  distribute_step e ticket = (e', Ok tr) -> canonical e ->
  unit_or_placeholder (units e) (tr_resolved tr) /\
  (Result.office (tr_result tr) = tr_resolved tr \/
   Result.office (tr_result tr) = CAPITAL_ESCALATION).
Proof.
  intros H Hc. apply distribute_step_inv in H as (_ & Hr & _ & He & _ & _ & -> & _).
  cbv zeta in *. split; [rewrite Hr; by apply get_office_canonical|].
  unfold escalation in He. destruct (_ && _); injection He as _ <-; auto.
Qed.

Lemma distribute_loop_offices (e : Engine) (ts : list Ticket.t) :
  canonical e ->
  Forall (fun tr =>
            unit_or_placeholder (units e) (tr_resolved tr) /\
            (Result.office (tr_result tr) = tr_resolved tr \/
             Result.office (tr_result tr) = CAPITAL_ESCALATION))
         (distribute_loop e ts).1.2.
Proof.
  revert e. induction ts as [|t ts IH]; intros e Hc; [constructor|].
  rewrite distribute_loop_cons.
  destruct (distribute_step e t) as [e1 [tr|x]] eqn:Hs; [|constructor].
  specialize (IH e1 (distribute_step_canonical _ _ _ _ Hs Hc)).
  pose proof (distribute_step_managers _ _ _ _ Hs) as (_ & Hu & _).
  destruct (distribute_loop e1 ts) as [[e2 trs] r]. cbn in *.
  constructor; [by eapply distribute_step_offices|]. by rewrite <- Hu.
Qed.

(** C8, as stated, fails without a unit in Astana: a domestic ticket
    from a city without office is sent to "Астан", which is no unit. *)
Lemma office_outside_units :
  (distribute no_astana).2 =
    Ok [Result.mk (Str "T1") "Консультация" "RU" 3 "Астан" UNASSIGNED] /\
  units no_astana = ["Алматы"] /\
  ~ ("Астан" ∈ units no_astana \/ "Астан" = CAPITAL_ESCALATION).
Proof.
  split; [vm_compute; reflexivity|]. split; [reflexivity|].
  intros [H|H]; [|discriminate].
  apply list_elem_of_In in H. cbn in H. destruct H as [H|[]]. discriminate.
Qed.

(** C8, amended: in a run of an engine as the constructor builds it, the
    office every iteration filters by is the name of a unit, or the
    placeholder "Астан" (resp. "Алмат") that stands for a capital office
    when no unit name contains "астан" (resp. "алмат"); the office
    recorded is that office or the escalation marker. *)
Theorem office_is_unit_or_placeholder (ts : list Ticket.t) (ms : list Manager.t)
    (us : list string) (fb : bool) :
  Forall (fun tr =>
            unit_or_placeholder us (tr_resolved tr) /\
            (Result.office (tr_result tr) = tr_resolved tr \/
             Result.office (tr_result tr) = CAPITAL_ESCALATION))
         (distribute_loop (new_engine ts ms us fb) ts).1.2 /\
  Py.capitalize "астан" = "Астан" /\ Py.capitalize "алмат" = "Алмат".
Proof.
  split; [|done]. by apply (distribute_loop_offices (new_engine ts ms us fb) ts).
Qed.
(** ** Two candidates *)








(** ** An empty city *)

Lemma find_ext_bool {A} (f g : A -> bool) (l : list A) :
  (forall x, f x = g x) -> List.find f l = List.find g l.
Proof. intros H. induction l as [|x l IH]; cbn; [done|]. by rewrite H, IH. Qed.

(** The empty string is contained in every root, so an empty city
    matches every unit whose root is not empty. *)
Lemma empty_city_matches (off : string) :
  city_matches "" off = negb (String.eqb (office_root off) "").
Proof. unfold city_matches. by rewrite contains_empty, orb_true_r, andb_true_r. Qed.

Lemma get_office_empty_city (e : Engine) (ticket : Ticket.t) (off : string) :
  py_str (get (Ticket.city ticket) "") = "" ->
  List.find (fun off => negb (String.eqb (office_root off) "")) (units e) = Some off ->
  get_office e ticket = (off, e).
Proof.
  intros Hc Hf. unfold get_office. rewrite Hc.
  change (Py.lower "") with "".
  by rewrite (find_ext_bool _ _ _ empty_city_matches), Hf.
Qed.

(** C2: a domestic ticket with an empty city is not passed on to the
    branch on the country, which would give the office in Astana: the
    empty city matches the first unit, here the one in Almaty.  (A city
    that is NaN reads "nan", matches nothing here and is passed on.) *)
Theorem empty_city_takes_first_unit :
  let t := ticket "T1" "вопрос" "MASS" "Казахстан" "" in
  units no_city = ["Алматы"; "Астана"] /\
  astana_office no_city = "Астана" /\
  is_domestic (Py.keep_letters (Py.lower "Казахстан")) = true /\
  List.find (city_matches "") (units no_city) = Some "Алматы" /\
  get_office no_city t = ("Алматы", no_city) /\
  (distribute no_city).2 =
    Ok [Result.mk (Str "T1") "Консультация" "RU" 3 "Алматы" "A"] /\
  get_office no_city
    (Ticket.mk (Some (Str "T1")) (Some (Str "вопрос")) (Some (Str "MASS"))
       (Some (Str "Казахстан")) (Some NaN)) = ("Астана", no_city).
Proof. repeat split; vm_compute; reflexivity. Qed.

(** ** Exceptions *)

(** The gates raise exactly when the office has no manager, the segment
    gate runs and a later gate reads a column. *)
Lemma pipeline_raises (e : Engine) (office : string) (ai : AI.t) :
  rows (office_pool e office) = [] ->
  AI.segment ai ∈ [VIP; PRIORITY] ->
  AI.type ai = DataChange \/ AI.lang ai ∈ [KZ; ENG] ->
  exists column, pipeline e office ai = Raise (KeyError column).
Proof.
  intros Hr Hs Hg. unfold pipeline.
  rewrite (bool_decide_eq_true_2 _ Hs).
  unfold office_pool in *. cbn [rows] in Hr. rewrite Hr. cbn.
  destruct (bool_decide (AI.type ai = DataChange)) eqn:Ht; cbn; [eauto|].
  apply bool_decide_eq_false in Ht. destruct Hg as [|Hl]; [done|].
  rewrite (bool_decide_eq_true_2 _ Hl). cbn. eauto.
Qed.

Lemma pipeline_ok (e : Engine) (office : string) (ai : AI.t) :
  rows (office_pool e office) <> [] \/
  AI.segment ai = MASS \/
  (AI.type ai <> DataChange /\ AI.lang ai = RU) ->
  exists f, pipeline e office ai = Ok f.
Proof.
  intros H. unfold pipeline.
  destruct (office_pool e office) as [rs|] eqn:Hpool; [|done].
  cbn [rows] in H.
  destruct (bool_decide (AI.segment ai ∈ [VIP; PRIORITY])) eqn:Hs;
    destruct (bool_decide (AI.type ai = DataChange)) eqn:Ht;
    destruct (bool_decide (AI.lang ai ∈ [KZ; ENG])) eqn:Hl;
    destruct rs as [|r rs]; try (eexists; reflexivity).
  all: try apply bool_decide_eq_true in Ht.
  all: destruct H as [|[Hm|[? Hr]]]; try done.
  all: try (rewrite Hm in Hs; discriminate Hs).
  all: rewrite Hr in Hl; discriminate Hl.
Qed.

(** When no exception leaves the loop, every ticket has its record, in
    the order of the tickets. *)
Lemma distribute_results (e : Engine) (rs : list Result.t) :
  (distribute e).2 = Ok rs ->
  List.map Result.guid rs = List.map (fun t => get (Ticket.guid t) "N/A") (tickets e).
Proof.
  unfold distribute.
  pose proof (distribute_loop_complete e (tickets e)) as H.
  destruct (distribute_loop e (tickets e)) as [[e' trs] [x|]]; cbn in *; [done|].
  intros [= <-]. rewrite <- H by done. by rewrite map_map.
Qed.

(** C4: a run of two tickets that emits no record at all: for the first
    ticket the office has no manager, the segment gate leaves a frame
    without columns and the language gate raises KeyError. *)
Theorem no_result_for_english_vip :
  length (tickets english_vip) = 2%nat /\
  pipeline english_vip "Караганда"
    (analyze_ticket (ticket "T1" "please help" "VIP" "Казахстан" "Караганда")) =
    Raise (KeyError "skills_set") /\
  (distribute english_vip).2 = Raise (KeyError "skills_set").
Proof. repeat split; vm_compute; reflexivity. Qed.

(** ** The fallback *)

(** The fallback reads the office the escalation block left. *)
Lemma step_fallback (e e' : Engine) (ticket : Ticket.t) (tr : Trace) :
  distribute_step e ticket = (e', Ok tr) ->
  tr_subset tr =
    if empty (tr_escalated tr) && enable_fallback e
    then office_pool e (tr_office tr)
    else tr_escalated tr.
Proof.
  intros H. apply distribute_step_inv in H as (_ & _ & _ & _ & -> & _).
  destruct (get_office_frame e ticket) as (Hm & _ & _ & _ & _ & Hf). cbv zeta in *.
  unfold fallback, office_pool. by rewrite Hm, Hf.
Qed.

(** C6: with the fallback on, a VIP ticket whose escalation finds nobody
    does not get the managers of its resolved office: the fallback looks
    for managers of the office "CAPITAL_ESCALATION", finds none and the
    ticket stays unassigned. *)
Theorem fallback_after_escalation :
  let tr := first_trace vip_with_fallback in
  enable_fallback vip_with_fallback = true /\
  tr_resolved tr = "Караганда" /\
  office_pool vip_with_fallback "Караганда" = Rows [(0%nat, manager_K)] /\
  empty (tr_escalated tr) = true /\
  tr_office tr = CAPITAL_ESCALATION /\
  tr_subset tr = Rows [] /\
  (distribute vip_with_fallback).2 =
    Ok [Result.mk (Str "T1") "Консультация" "RU" 10 CAPITAL_ESCALATION UNASSIGNED].
Proof. repeat split; vm_compute; reflexivity. Qed.

(** ** The gates as one filter *)

Lemma filter_filter_rows (p q : Row -> bool) (l : list Row) :
  List.filter q (List.filter p l) = List.filter (fun r => p r && q r) l.
Proof.
  induction l as [|x l IH]; cbn; [done|].
  destruct (p x); cbn; [destruct (q x)|]; by rewrite IH.
Qed.

Lemma filter_ext_rows (p q : Row -> bool) (l : list Row) :
  (forall r, p r = q r) -> List.filter p l = List.filter q l.
Proof. intros H. induction l as [|x l IH]; cbn; [done|]. by rewrite H, IH. Qed.

Lemma rows_gate (b : bool) c p (f g : Frame) :
  (if b then mask c p f else Ok f) = Ok g ->
  rows g = List.filter (fun r => gate b p r.2) (rows f).
Proof.
  destruct b; cbn.
  - destruct f as [rs|]; [|done]. by intros [= <-].
  - intros [= <-]. induction (rows f) as [|x l IH]; cbn; [done|]. by rewrite <- IH.
Qed.

Lemma rows_gate_apply (b : bool) c p (f g : Frame) :
  (if b then mask_apply c p f else Ok f) = Ok g ->
  rows g = List.filter (fun r => gate b p r.2) (rows f).
Proof.
  destruct b; cbn.
  - destruct f as [rs|]; [|done]. intros [= <-]. apply rows_apply_rows.
  - intros [= <-]. induction (rows f) as [|x l IH]; cbn; [done|]. by rewrite <- IH.
Qed.

Lemma sublist_filter_weaken (p q : Row -> bool) (l : list Row) :
  (forall r, q r = true -> p r = true) ->
  sublist (List.filter q l) (List.filter p l).
Proof.
  intros H. induction l as [|x l IH]; cbn; [done|].
  destruct (q x) eqn:Hq.
  - rewrite (H x Hq). by apply sublist_skip.
  - destruct (p x); [by apply sublist_cons | done].
Qed.

Lemma rows_of_pipeline (e : Engine) (office : string) (ai : AI.t) (f : Frame) :
  pipeline e office ai = Ok f ->
  rows f = List.filter (fun r => passes office ai r.2) (frame_of (managers e)).
Proof.
  intros H. unfold pipeline in H.
  destruct (if bool_decide (AI.segment ai ∈ _) then _ else _) as [f1|] eqn:H1; [|done].
  apply rows_gate_apply in H1. cbn in H.
  destruct (if bool_decide (AI.type ai = _) then _ else _) as [f2|] eqn:H2; [|done].
  apply rows_gate in H2. cbn in H. apply rows_gate_apply in H.
  rewrite H, H2, H1. unfold office_pool. cbn [rows].
  rewrite !filter_filter_rows. apply filter_ext_rows. intros r. unfold passes.
  by rewrite ?andb_assoc.
Qed.

Lemma elem_of_pipeline (e : Engine) (office : string) (ai : AI.t) (f : Frame) :
  pipeline e office ai = Ok f ->
  forall r, r ∈ rows f <-> managers e !! r.1 = Some r.2 /\ passes office ai r.2 = true.
Proof.
  intros H r. by rewrite (rows_of_pipeline _ _ _ _ H), elem_of_filter_rows, elem_of_frame_of.
Qed.

(** X1: when the three gates raise nothing, the frame they leave holds
    exactly the rows of the managers frame whose manager is of the office
    and passes every gate the analysis switches on, in the order of the
    managers frame and under their labels there; so it is a part of the
    rows of the office, in their order. *)
Theorem pipeline_rows (e : Engine) (office : string) (ai : AI.t) (f : Frame) :
  pipeline e office ai = Ok f ->
  rows f = List.filter (fun r => passes office ai r.2) (frame_of (managers e)) /\
  sublist (rows f) (rows (office_pool e office)) /\
  forall r, r ∈ rows f <-> managers e !! r.1 = Some r.2 /\ passes office ai r.2 = true.
Proof.
  intros H. pose proof (rows_of_pipeline _ _ _ _ H) as Hr.
  split; [done|]. split; [|by apply elem_of_pipeline].
  rewrite Hr. unfold office_pool. cbn [rows].
  apply sublist_filter_weaken. intros r. unfold passes.
  by intros (((? & _)%andb_prop & _)%andb_prop & _)%andb_prop.
Qed.

Lemma pipeline_rows_witness :
  let ai := analyze_ticket (ticket "T1" "вопрос" "VIP" "Казахстан" "Астана") in
  pipeline vip_in_karaganda "Астана" ai = Ok (Rows [(1%nat, manager_V)]) /\
  sublist [(1%nat, manager_V)] (rows (office_pool vip_in_karaganda "Астана")) /\
  passes "Астана" ai manager_V = true.
Proof.
  cbv zeta.
  assert (pipeline vip_in_karaganda "Астана"
            (analyze_ticket (ticket "T1" "вопрос" "VIP" "Казахстан" "Астана")) =
          Ok (Rows [(1%nat, manager_V)])) as Hp
    by (vm_compute; reflexivity).
  split; [exact Hp|].
  destruct (pipeline_rows _ _ _ _ Hp) as (_ & Hsub & Hin).
  split; [exact Hsub|].
  destruct (Hin (1%nat, manager_V)) as [Hpass _].
  apply Hpass. left.
Defined.

(** X2: the gates raise exactly when the office has no manager, the
    segment is VIP or PRIORITY and the type is a change of data or the
    language is KZ or ENG.  The exception is then the KeyError of the
    first column read after the segment gate: pos_norm for a change of
    data, skills_set otherwise. *)
Theorem pipeline_raises_iff (e : Engine) (office : string) (ai : AI.t) :
  let no_manager_behind_gates :=
    rows (office_pool e office) = [] /\
    AI.segment ai ∈ [VIP; PRIORITY] /\
    (AI.type ai = DataChange \/ AI.lang ai ∈ [KZ; ENG]) in
  ((exists x, pipeline e office ai = Raise x) <-> no_manager_behind_gates) /\
  (no_manager_behind_gates ->
   pipeline e office ai =
     Raise (KeyError (if bool_decide (AI.type ai = DataChange)
                      then "pos_norm" else "skills_set"))).
Proof.
  cbv zeta.
  assert (rows (office_pool e office) = [] /\
          AI.segment ai ∈ [VIP; PRIORITY] /\
          (AI.type ai = DataChange \/ AI.lang ai ∈ [KZ; ENG]) ->
          pipeline e office ai =
            Raise (KeyError (if bool_decide (AI.type ai = DataChange)
                             then "pos_norm" else "skills_set"))) as Hraise.
  { intros (Hr & Hs & Hg). unfold pipeline.
    rewrite (bool_decide_eq_true_2 _ Hs).
    unfold office_pool in *. cbn [rows] in Hr. rewrite Hr. cbn.
    destruct (bool_decide (AI.type ai = DataChange)) eqn:Ht; cbn; [done|].
    apply bool_decide_eq_false in Ht. destruct Hg as [|Hl]; [done|].
    by rewrite (bool_decide_eq_true_2 _ Hl). }
  split; [|exact Hraise]. split; [|intros H; rewrite (Hraise H); eauto].
  intros [x Hx].
  destruct (rows (office_pool e office)) as [|r rs] eqn:Hr; cycle 1.
  { destruct (pipeline_ok e office ai) as [f Hf]; [left; by rewrite Hr | congruence]. }
  destruct (decide (AI.segment ai = MASS)) as [Hm|Hm].
  { destruct (pipeline_ok e office ai) as [f Hf]; [auto | congruence]. }
  destruct (decide (AI.type ai = DataChange)) as [Ht|Ht].
  { split; [done|]. split; [|by left].
    destruct (AI.segment ai); [left | right; left | done]. }
  destruct (decide (AI.lang ai = RU)) as [Hl|Hl].
  { destruct (pipeline_ok e office ai) as [f Hf]; [auto | congruence]. }
  split; [done|]. split.
  - destruct (AI.segment ai); [left | right; left | done].
  - right. destruct (AI.lang ai); [left | right; left | done].
Qed.

Lemma by_load_then_name_refl (a : Row) : by_load_then_name a a.
Proof.
  right. split; [done|].
  destruct (String.leb_total (Manager.name a.2) (Manager.name a.2)); done.
Qed.

(** X3: in an iteration with a non-empty final subset the selected row
    is a row of that subset, the record carries its name, and at most one
    row of the subset comes before it in the order by load, then name:
    every row of the subset except possibly one is at or after the
    selected row. *)
Theorem selected_among_least_two (e e' : Engine) (ticket : Ticket.t) (tr : Trace) :
  distribute_step e ticket = (e', Ok tr) ->
  empty (tr_subset tr) = false ->
  exists selected least : Row,
    tr_selected tr = Some selected.1 /\
    Result.manager (tr_result tr) = Manager.name selected.2 /\
    selected ∈ rows (tr_subset tr) /\
    least ∈ rows (tr_subset tr) /\
    forall r, r ∈ rows (tr_subset tr) -> r = least \/ by_load_then_name selected r.
Proof.
  intros Hstep Hne.
  destruct (step_nonempty _ _ _ _ Hstep Hne) as (sel & Hl & Hsel & Hname & _).
  cbv zeta in Hl.
  pose proof (sort_values_sorted (rows (tr_subset tr))) as Hs.
  pose proof (sort_values_perm (rows (tr_subset tr))) as Hp.
  set (c := default 0 (rr_counters e !! tr_key tr)) in *.
  destruct (sort_values (rows (tr_subset tr))) as [|a [|b rest]] eqn:Hsort.
  - by rewrite take_nil, lookup_nil in Hl.
  - change (take 2 [a]) with [a] in Hl.
    change (Z.of_nat (length [a])) with 1 in Hl.
    rewrite Z.mod_1_r in Hl. injection Hl as <-.
    exists a, a. rewrite <- Hp.
    split; [done|]. split; [done|]. split; [left|]. split; [left|].
    intros r Hr. rewrite <- Hp in Hr. left. by apply list_elem_of_singleton in Hr.
  - apply StronglySorted_inv in Hs as [Hs Ha].
    apply StronglySorted_inv in Hs as [_ Hb].
    change (take 2 (a :: b :: rest)) with [a; b] in Hl.
    change (Z.of_nat (length [a; b])) with 2 in Hl.
    assert (0 <= c mod 2 < 2) as Hc by (apply Z.mod_pos_bound; lia).
    destruct (decide (c mod 2 = 0)) as [H0|H0].
    + rewrite H0 in Hl. injection Hl as <-.
      exists a, a. rewrite <- Hp.
      split; [done|]. split; [done|]. split; [left|]. split; [left|].
      intros r Hr. rewrite <- Hp in Hr. right. apply elem_of_cons in Hr as [->|Hr];
        [apply by_load_then_name_refl|].
      rewrite Forall_forall in Ha. by apply Ha.
    + replace (c mod 2) with 1 in Hl by lia. injection Hl as <-.
      exists b, a. rewrite <- Hp.
      split; [done|]. split; [done|]. split; [right; left|]. split; [left|].
      intros r Hr. rewrite <- Hp in Hr.
      apply elem_of_cons in Hr as [->|Hr]; [by left|]. right.
      apply elem_of_cons in Hr as [->|Hr]; [apply by_load_then_name_refl|].
      rewrite Forall_forall in Hb. by apply Hb.
Qed.

Lemma selected_among_least_two_witness :
  let e := tied_pair 2 in
  let tr := first_trace e in
  distribute_step e (question "T1") = ((distribute_step e (question "T1")).1, Ok tr) /\
  empty (tr_subset tr) = false /\
  exists selected least : Row,
    tr_selected tr = Some selected.1 /\
    Result.manager (tr_result tr) = Manager.name selected.2 /\
    selected ∈ rows (tr_subset tr) /\
    least ∈ rows (tr_subset tr) /\
    forall r, r ∈ rows (tr_subset tr) -> r = least \/ by_load_then_name selected r.
Proof.
  cbv zeta.
  assert (distribute_step (tied_pair 2) (question "T1") =
          ((distribute_step (tied_pair 2) (question "T1")).1,
           Ok (first_trace (tied_pair 2)))) as Hstep
    by (vm_compute; reflexivity).
  assert (empty (tr_subset (first_trace (tied_pair 2))) = false) as Hne
    by (vm_compute; reflexivity).
  split; [exact Hstep|]. split; [exact Hne|].
  exact (selected_among_least_two _ _ _ _ Hstep Hne).
Defined.

(** ** Who can be selected *)

Lemma office_pool_get_office (e : Engine) (ticket : Ticket.t) (office : string) :
  office_pool (get_office e ticket).2 office = office_pool e office.
Proof.
  destruct (get_office_frame e ticket) as (Hm & _). cbv zeta in Hm.
  unfold office_pool. by rewrite Hm.
Qed.

(** The label in the trace is the label of a row of the final subset. *)
Lemma selected_in_subset (e e' : Engine) (ticket : Ticket.t) (tr : Trace) (i : nat) :
  distribute_step e ticket = (e', Ok tr) ->
  tr_selected tr = Some i ->
  exists m, (i, m) ∈ rows (tr_subset tr) /\ managers e !! i = Some m /\
            Result.manager (tr_result tr) = Manager.name m.
Proof.
  intros Hstep Hsel.
  destruct (empty (tr_subset tr)) eqn:He.
  { destruct (step_empty _ _ _ _ Hstep He) as (_ & Hn & _). congruence. }
  destruct (step_nonempty _ _ _ _ Hstep He) as (sel & Hl & Hs & Hname & _ & _ & Hin).
  cbv zeta in Hl. rewrite Hsel in Hs. injection Hs as ->.
  exists sel.2. split; [|done].
  rewrite <- sort_values_perm.
  eapply (subseteq_take 2), list_elem_of_lookup_2.
  rewrite <- surjective_pairing. exact Hl.
Qed.

Lemma selected_none_iff (e e' : Engine) (ticket : Ticket.t) (tr : Trace) :
  distribute_step e ticket = (e', Ok tr) ->
  tr_selected tr = None <-> rows (tr_subset tr) = [].
Proof.
  intros Hstep. rewrite <- empty_rows. split.
  - intros Hn. destruct (empty (tr_subset tr)) eqn:He; [done|].
    destruct (step_nonempty _ _ _ _ Hstep He) as (sel & _ & Hs & _). congruence.
  - intros He. by destruct (step_empty _ _ _ _ Hstep He) as (_ & ? & _).
Qed.

(** X4: when the gates leave somebody, nothing widens the choice: the
    final subset is the filtered one, the record carries the resolved
    office, and somebody is selected, who is a row of the managers frame,
    sits in the resolved office and passes every gate that is on. *)
Theorem gates_respected (e e' : Engine) (ticket : Ticket.t) (tr : Trace) :
  distribute_step e ticket = (e', Ok tr) ->
  empty (tr_filtered tr) = false ->
  tr_subset tr = tr_filtered tr /\
  Result.office (tr_result tr) = tr_resolved tr /\
  exists i m,
    tr_selected tr = Some i /\ managers e !! i = Some m /\
    Result.manager (tr_result tr) = Manager.name m /\
    passes (tr_resolved tr) (tr_ai tr) m = true.
Proof.
  intros Hstep Hne.
  pose proof (distribute_step_inv _ _ _ _ Hstep) as (_ & _ & Hp & He & Hf & _ & Ho & _).
  cbv zeta in *. unfold escalation in He. rewrite Hne, andb_false_r in He.
  injection He as He1 He2. rewrite <- He1 in Hf. unfold fallback in Hf.
  rewrite Hne in Hf. cbn in Hf.
  split; [done|]. split; [congruence|].
  destruct (tr_selected tr) as [i|] eqn:Hsel.
  - destruct (selected_in_subset _ _ _ _ _ Hstep Hsel) as (m & Hin & Hi & Hname).
    exists i, m. repeat split; try done.
    rewrite Hf in Hin. pose proof (elem_of_pipeline _ _ _ _ Hp) as Hrows.
    by apply Hrows in Hin as [_ ?].
  - apply (selected_none_iff _ _ _ _ Hstep) in Hsel.
    rewrite Hf in Hsel. apply empty_rows in Hsel. congruence.
Qed.

Lemma gates_respected_witness :
  let e := tied_pair 2 in
  let tr := first_trace e in
  distribute_step e (question "T1") = ((distribute_step e (question "T1")).1, Ok tr) /\
  empty (tr_filtered tr) = false /\
  tr_subset tr = tr_filtered tr /\
  Result.office (tr_result tr) = tr_resolved tr /\
  exists i m,
    tr_selected tr = Some i /\ managers e !! i = Some m /\
    Result.manager (tr_result tr) = Manager.name m /\
    passes (tr_resolved tr) (tr_ai tr) m = true.
Proof.
  cbv zeta.
  assert (distribute_step (tied_pair 2) (question "T1") =
          ((distribute_step (tied_pair 2) (question "T1")).1,
           Ok (first_trace (tied_pair 2)))) as Hstep
    by (vm_compute; reflexivity).
  assert (empty (tr_filtered (first_trace (tied_pair 2))) = false) as Hne
    by (vm_compute; reflexivity).
  split; [exact Hstep|]. split; [exact Hne|].
  exact (gates_respected _ _ _ _ Hstep Hne).
Defined.

Lemma selected_has_vip (e e' : Engine) (ticket : Ticket.t) (tr : Trace) (i : nat) :
  distribute_step e ticket = (e', Ok tr) ->
  enable_fallback e = false ->
  AI.segment (tr_ai tr) ∈ [VIP; PRIORITY] ->
  tr_selected tr = Some i ->
  exists m, managers e !! i = Some m /\
            Result.manager (tr_result tr) = Manager.name m /\
            "VIP" ∈ Manager.skills_set m.
Proof.
  intros Hstep Hfb Hseg Hsel.
  destruct (selected_in_subset _ _ _ _ _ Hstep Hsel) as (m & Hin & Hi & Hname).
  exists m. split; [done|]. split; [done|].
  pose proof (distribute_step_inv _ _ _ _ Hstep) as (_ & _ & Hp & He & Hf & _).
  destruct (get_office_frame e ticket) as (_ & _ & _ & _ & _ & Hfb').
  cbv zeta in *. unfold fallback in Hf. rewrite Hfb', Hfb, andb_false_r in Hf.
  rewrite Hf in Hin. unfold escalation in He.
  destruct (bool_decide _ && empty _); injection He as He1 _; rewrite <- He1 in Hin.
  - rewrite capital_subset_get_office in Hin.
    by apply elem_of_capital_subset in Hin as (_ & _ & ?).
  - pose proof (elem_of_pipeline _ _ _ _ Hp) as Hrows.
    apply Hrows in Hin as [_ Hpass].
    unfold passes in Hpass. rewrite (bool_decide_eq_true_2 _ Hseg) in Hpass.
    apply andb_prop in Hpass as [Hpass _]. apply andb_prop in Hpass as [Hpass _].
    apply andb_prop in Hpass as [_ Hpass]. cbn in Hpass.
    by apply bool_decide_eq_true in Hpass.
Qed.

(** X5: with the fallback off, whoever is selected for a ticket of the
    VIP or PRIORITY segment has the skill VIP, on the escalation path as
    well. *)
Theorem vip_skill_required (e e' : Engine) (ticket : Ticket.t) (tr : Trace) (i : nat) :
  distribute_step e ticket = (e', Ok tr) ->
  enable_fallback e = false ->
  AI.segment (tr_ai tr) ∈ [VIP; PRIORITY] ->
  tr_selected tr = Some i ->
  exists m, managers e !! i = Some m /\
            Result.manager (tr_result tr) = Manager.name m /\
            "VIP" ∈ Manager.skills_set m.
Proof.
  apply selected_has_vip.
Qed.

Lemma vip_skill_required_witness :
  let e := vip_in_karaganda in
  let t := ticket "T1" "вопрос" "VIP" "Казахстан" "Караганда" in
  let tr := first_trace e in
  distribute_step e t = ((distribute_step e t).1, Ok tr) /\
  enable_fallback e = false /\
  AI.segment (tr_ai tr) ∈ [VIP; PRIORITY] /\
  tr_selected tr = Some 1%nat /\
  exists m, managers e !! 1%nat = Some m /\
            Result.manager (tr_result tr) = Manager.name m /\
            "VIP" ∈ Manager.skills_set m.
Proof.
  cbv zeta.
  assert (distribute_step vip_in_karaganda
            (ticket "T1" "вопрос" "VIP" "Казахстан" "Караганда") =
          ((distribute_step vip_in_karaganda
              (ticket "T1" "вопрос" "VIP" "Казахстан" "Караганда")).1,
           Ok (first_trace vip_in_karaganda))) as Hstep
    by (vm_compute; reflexivity).
  assert (enable_fallback vip_in_karaganda = false) as Hfb by reflexivity.
  assert (AI.segment (tr_ai (first_trace vip_in_karaganda)) ∈ [VIP; PRIORITY]) as Hseg
    by (apply (bool_decide_unpack _); vm_compute; exact I).
  assert (tr_selected (first_trace vip_in_karaganda) = Some 1%nat) as Hsel
    by (vm_compute; reflexivity).
  split; [exact Hstep|]. split; [exact Hfb|]. split; [exact Hseg|]. split; [exact Hsel|].
  exact (vip_skill_required _ _ _ _ _ Hstep Hfb Hseg Hsel).
Defined.

(** X6: with the fallback off and no manager with the skill VIP, a
    ticket of the VIP or PRIORITY segment whose iteration completes is
    recorded UNASSIGNED, under CAPITAL_ESCALATION for VIP and under the
    resolved office for PRIORITY, and the managers frame is left as it
    was. *)
Theorem no_vip_manager_unassigned (e e' : Engine) (ticket : Ticket.t) (tr : Trace) :
  distribute_step e ticket = (e', Ok tr) ->
  enable_fallback e = false ->
  Forall (fun m => "VIP" ∉ Manager.skills_set m) (managers e) ->
  AI.segment (tr_ai tr) ∈ [VIP; PRIORITY] ->
  Result.manager (tr_result tr) = UNASSIGNED /\
  Result.office (tr_result tr) =
    (if bool_decide (AI.segment (tr_ai tr) = VIP) then CAPITAL_ESCALATION
     else tr_resolved tr) /\
  managers e' = managers e.
Proof.
  intros Hstep Hfb Hall Hseg.
  assert (rows (tr_filtered tr) = [] /\ rows (tr_subset tr) = []) as [Hfil Hsub].
  { pose proof (distribute_step_inv _ _ _ _ Hstep) as (_ & _ & Hp & _).
    cbv zeta in Hp. pose proof (elem_of_pipeline _ _ _ _ Hp) as Hrows.
    assert (tr_selected tr = None) as Hnone.
    { destruct (tr_selected tr) as [i|] eqn:Hsel; [|done].
      destruct (selected_has_vip _ _ _ _ _ Hstep Hfb Hseg Hsel) as (m & Hi & _ & Hv).
      rewrite Forall_forall in Hall. exfalso. eapply Hall; [|exact Hv].
      by eapply list_elem_of_lookup_2. }
    split; [|by apply (selected_none_iff _ _ _ _ Hstep)].
    destruct (rows (tr_filtered tr)) as [|r rs] eqn:Hr; [done|]. exfalso.
    destruct (Hrows r) as [Hr1 _]. destruct Hr1 as [Hi Hpass]; [left|].
    unfold passes in Hpass. rewrite (bool_decide_eq_true_2 _ Hseg) in Hpass.
    apply andb_prop in Hpass as [Hpass _]. apply andb_prop in Hpass as [Hpass _].
    apply andb_prop in Hpass as [_ Hpass]. cbn in Hpass.
    apply bool_decide_eq_true in Hpass.
    rewrite Forall_forall in Hall. eapply Hall; [|exact Hpass].
    destruct (get_office_frame e ticket) as (Hm & _). cbv zeta in Hm.
    rewrite Hm in Hi. by eapply list_elem_of_lookup_2. }
  apply empty_rows in Hsub. apply empty_rows in Hfil.
  destruct (step_empty _ _ _ _ Hstep Hsub) as (Hu & _ & Hms & _).
  split; [done|]. split; [|done].
  pose proof (distribute_step_inv _ _ _ _ Hstep) as (_ & _ & _ & He & _ & _ & -> & _).
  cbv zeta in He. unfold escalation in He. rewrite Hfil, andb_true_r in He.
  by destruct (bool_decide _); injection He as _ <-.
Qed.

Lemma no_vip_manager_unassigned_witness :
  let e := nobody_for_vip in
  let t := ticket "T1" "вопрос" "VIP" "Казахстан" "Караганда" in
  let tr := first_trace e in
  distribute_step e t = ((distribute_step e t).1, Ok tr) /\
  enable_fallback e = false /\
  Forall (fun m => "VIP" ∉ Manager.skills_set m) (managers e) /\
  AI.segment (tr_ai tr) ∈ [VIP; PRIORITY] /\
  Result.manager (tr_result tr) = UNASSIGNED /\
  Result.office (tr_result tr) = CAPITAL_ESCALATION /\
  managers (distribute_step e t).1 = managers e.
Proof.
  cbv zeta.
  assert (distribute_step nobody_for_vip
            (ticket "T1" "вопрос" "VIP" "Казахстан" "Караганда") =
          ((distribute_step nobody_for_vip
              (ticket "T1" "вопрос" "VIP" "Казахстан" "Караганда")).1,
           Ok (first_trace nobody_for_vip))) as Hstep
    by (vm_compute; reflexivity).
  assert (enable_fallback nobody_for_vip = false) as Hfb by reflexivity.
  assert (Forall (fun m => "VIP" ∉ Manager.skills_set m) (managers nobody_for_vip)) as Hall
    by (apply (bool_decide_unpack _); vm_compute; exact I).
  assert (AI.segment (tr_ai (first_trace nobody_for_vip)) ∈ [VIP; PRIORITY]) as Hseg
    by (apply (bool_decide_unpack _); vm_compute; exact I).
  split; [exact Hstep|]. split; [exact Hfb|]. split; [exact Hall|]. split; [exact Hseg|].
  destruct (no_vip_manager_unassigned _ _ _ _ Hstep Hfb Hall Hseg) as (Hu & Ho & Hm).
  split; [exact Hu|]. split; [|exact Hm].
  rewrite Ho. vm_compute. reflexivity.
Defined.

(** X7: for a ticket of the MASS segment in Russian that is no change
    of data the iteration always completes; the final subset is the whole
    pool of the resolved office, the record carries that office, and
    nobody is selected exactly when the office has no manager. *)
Theorem plain_ticket_assigned (e : Engine) (ticket : Ticket.t) :
  AI.segment (analyze_ticket ticket) = MASS ->
  AI.lang (analyze_ticket ticket) = RU ->
  AI.type (analyze_ticket ticket) <> DataChange ->
  exists e' tr,
    distribute_step e ticket = (e', Ok tr) /\
    tr_subset tr = office_pool e (tr_resolved tr) /\
    Result.office (tr_result tr) = tr_resolved tr /\
    (tr_selected tr = None <-> rows (office_pool e (tr_resolved tr)) = []).
Proof.
  intros Hs Hl Ht.
  assert (pipeline (get_office e ticket).2 (get_office e ticket).1 (analyze_ticket ticket) =
          Ok (office_pool e (get_office e ticket).1)) as Hp.
  { unfold pipeline. rewrite Hs, Hl, (bool_decide_eq_false_2 _ Ht).
    cbn. by rewrite office_pool_get_office. }
  destruct (distribute_step_ok _ _ _ Hp) as (e' & tr & Hstep).
  exists e', tr. split; [done|].
  pose proof (distribute_step_inv _ _ _ _ Hstep) as (Hai & Hr & Hp' & He & Hf & _ & Ho & _).
  cbv zeta in *. rewrite Hr, Hai, Hp in Hp'. injection Hp' as Hfil.
  unfold escalation in He. rewrite Hai, Hs in He. cbn in He.
  injection He as He1 He2.
  assert (tr_subset tr = office_pool e (tr_resolved tr)) as Hsub.
  { rewrite Hf, <- He1, <- He2, <- Hfil, Hr. unfold fallback.
    rewrite office_pool_get_office. by destruct (_ && _). }
  split; [done|]. split; [congruence|].
  by rewrite (selected_none_iff _ _ _ _ Hstep), Hsub.
Qed.

Lemma plain_ticket_assigned_witness :
  let e := tied_pair 2 in
  let t := question "T1" in
  AI.segment (analyze_ticket t) = MASS /\
  AI.lang (analyze_ticket t) = RU /\
  AI.type (analyze_ticket t) <> DataChange /\
  exists e' tr,
    distribute_step e t = (e', Ok tr) /\
    tr_subset tr = office_pool e (tr_resolved tr) /\
    Result.office (tr_result tr) = tr_resolved tr /\
    (tr_selected tr = None <-> rows (office_pool e (tr_resolved tr)) = []).
Proof.
  cbv zeta.
  assert (AI.segment (analyze_ticket (question "T1")) = MASS) as Hs
    by (vm_compute; reflexivity).
  assert (AI.lang (analyze_ticket (question "T1")) = RU) as Hl
    by (vm_compute; reflexivity).
  assert (AI.type (analyze_ticket (question "T1")) <> DataChange) as Ht
    by (vm_compute; discriminate).
  split; [exact Hs|]. split; [exact Hl|]. split; [exact Ht|].
  exact (plain_ticket_assigned (tied_pair 2) _ Hs Hl Ht).
Defined.



(** ** What a run adds up to *)

Lemma selector_counter (e e' : Engine) (key k : rr_key) (subset : Frame) m sel :
  selector e key subset = Ok (m, sel, e') ->
  default 0 (rr_counters e' !! k) =
  default 0 (rr_counters e !! k) +
  (if bool_decide (key = k /\ sel <> None) then 1 else 0).
Proof.
  destruct (empty subset) eqn:He.
  - rewrite selector_empty by done. intros [= <- <- <-].
    rewrite bool_decide_eq_false_2 by (by intros [_ ?]). lia.
  - destruct (selector_nonempty e key subset He) as (r & _ & ->).
    intros [= <- <- <-]. cbn [assign rr_counters].
    destruct (decide (key = k)) as [->|Hne].
    + rewrite lookup_insert_eq, bool_decide_eq_true_2 by done. done.
    + rewrite lookup_insert_ne, bool_decide_eq_false_2 by (by intros [? _] || done). lia.
Qed.

(** X9: after any number of iterations, whether or not the run was cut
    short by an exception, the counter of every bucket is its value at
    the start (0 if absent) plus the number of iterations that selected
    somebody under that bucket. *)
Theorem counter_accounting (e : Engine) (ts : list Ticket.t) (key : rr_key) :
  let run := distribute_loop e ts in
  default 0 (rr_counters run.1.1 !! key) =
  default 0 (rr_counters e !! key) + Z.of_nat (assigned_under key run.1.2).
Proof.
  cbv zeta. revert e. induction ts as [|t ts IH]; intros e; [cbn; lia|].
  rewrite distribute_loop_cons.
  destruct (distribute_step e t) as [e1 [tr|x]] eqn:Hs.
  - pose proof (distribute_step_inv _ _ _ _ Hs) as (_ & _ & _ & _ & _ & Hsel & _).
    apply (selector_counter _ _ _ key) in Hsel.
    destruct (get_office_frame e t) as (_ & Hrr & _). cbv zeta in *. rewrite Hrr in Hsel.
    specialize (IH e1). destruct (distribute_loop e1 ts) as [[e2 trs] r]. cbn in *.
    rewrite IH, Hsel. unfold assigned_under. cbn [List.filter].
    destruct (bool_decide _); cbn [length]; lia.
  - cbn. unfold distribute_step in Hs.
    destruct (get_office_frame e t) as (_ & Hrr & _). cbv zeta in Hrr.
    destruct (get_office e t) as [resolved e0]. cbn in Hrr.
    destruct (pipeline e0 resolved _) as [filtered|];
      [|injection Hs as <- _; rewrite Hrr; unfold assigned_under; cbn; lia].
    destruct (escalation e0 _ resolved filtered) as [escalated office].
    destruct (selector e0 _ _) as [[[m sel] e2]|]; [done|].
    injection Hs as <- _. rewrite Hrr. unfold assigned_under. cbn. lia.
Qed.

(** ** What a run leaves alone *)

Lemma static_after_alter (ms : list Manager.t) (label : nat) :
  static <$> alter Manager.add_load label ms = static <$> ms.
Proof.
  revert label. induction ms as [|m ms IH]; intros [|label]; cbn; [done..|].
  f_equal. apply IH.
Qed.

Lemma get_office_tickets (e : Engine) (ticket : Ticket.t) :
  tickets (get_office e ticket).2 = tickets e.
Proof.
  unfold get_office. destruct (List.find _ (units e)); [done|]. by destruct (negb _).
Qed.

Lemma distribute_step_tickets (e e' : Engine) (ticket : Ticket.t) (o : outcome Trace) :
  distribute_step e ticket = (e', o) -> tickets e' = tickets e.
Proof.
  pose proof (get_office_tickets e ticket) as Ht.
  unfold distribute_step. destruct (get_office e ticket) as [resolved e1]. cbn in Ht.
  destruct (pipeline e1 resolved _) as [filtered|]; [|by intros [= <- _]].
  destruct (escalation e1 _ resolved filtered) as [escalated office].
  destruct (empty (fallback e1 office escalated)) eqn:He.
  - rewrite selector_empty by done. by intros [= <- _].
  - destruct (selector_nonempty e1 (key_of office (analyze_ticket ticket)) _ He)
      as (r & _ & ->).
    by intros [= <- _].
Qed.

(** X10: a run changes nothing but loads and counters: the managers
    frame keeps its length and, row by row, the name, the normalised
    position, the skills and the office; the units, the two capital
    offices, the fallback switch and the tickets stay as they were. *)
Theorem run_keeps_static_data (e : Engine) (ts : list Ticket.t) :
  let e' := (distribute_loop e ts).1.1 in
  static <$> managers e' = static <$> managers e /\
  length (managers e') = length (managers e) /\
  units e' = units e /\
  astana_office e' = astana_office e /\
  almaty_office e' = almaty_office e /\
  enable_fallback e' = enable_fallback e /\
  tickets e' = tickets e.
Proof.
  cbv zeta. revert e. induction ts as [|t ts IH]; intros e; [done|].
  rewrite distribute_loop_cons.
  destruct (distribute_step e t) as [e1 o] eqn:Hs.
  pose proof (distribute_step_managers _ _ _ _ Hs) as (Hm & Hu & Ha & Hb & Hf).
  pose proof (distribute_step_tickets _ _ _ _ Hs) as Ht.
  assert (static <$> managers e1 = static <$> managers e) as Hst.
  { rewrite Hm. destruct o as [tr|]; [|done].
    destruct (tr_selected tr); [apply static_after_alter | done]. }
  assert (length (managers e1) = length (managers e)) as Hlen.
  { by rewrite <- (length_fmap static), Hst, length_fmap. }
  destruct o as [tr|x]; [|cbn; by rewrite Hu, Ha, Hb, Hf, Ht].
  specialize (IH e1). destruct (distribute_loop e1 ts) as [[e2 trs] r]. cbn in *.
  destruct IH as (-> & -> & -> & -> & -> & -> & ->). done.
Qed.




Lemma get_office_known (e : Engine) (ticket : Ticket.t) :
  unknown_location (units e) ticket = false ->
  (get_office e ticket).2 = e.
Proof.
  unfold unknown_location, get_office.
  destruct (List.find _ (units e)); [done|]. by intros ->.
Qed.



(** ** The analysis *)

(** X13: the priority of the analysis lies between 3 and 10: it is 10
    for a VIP ticket, 8 or 9 for a PRIORITY ticket and 3, 7 or 9 for a
    MASS ticket; fraud and claims have at least 9; and 3 is the priority
    of MASS consultations, changes of data and spam only. *)
Theorem priority_bounds (ticket : Ticket.t) :
  let ai := analyze_ticket ticket in
  3 <= AI.priority ai <= 10 /\
  (AI.segment ai = VIP -> AI.priority ai = 10) /\
  (AI.segment ai = PRIORITY -> 8 <= AI.priority ai <= 9) /\
  (AI.segment ai = MASS ->
   AI.priority ai = 3 \/ AI.priority ai = 7 \/ AI.priority ai = 9) /\
  (AI.type ai = Fraud \/ AI.type ai = Claim -> 9 <= AI.priority ai) /\
  (AI.priority ai = 3 ->
   AI.segment ai = MASS /\
   (AI.type ai = Consultation \/ AI.type ai = DataChange \/ AI.type ai = Spam)).
Proof.
  cbv zeta. unfold analyze_ticket. cbn [AI.priority AI.segment AI.type].
  destruct (type_of _), (segment_of _); cbn; intuition (lia || congruence).
Qed.

Lemma existsb_contains (words : list string) (text : string) :
  List.existsb (fun w => Py.contains w text) words = true <-> mentions words text.
Proof.
  unfold mentions. rewrite existsb_exists, Exists_exists. split.
  - intros (w & Hin & Hw). exists w. by rewrite list_elem_of_In, <- contains_iff.
  - intros (w & Hin & Hw). exists w. by rewrite <- list_elem_of_In, contains_iff.
Qed.

Lemma find_first {A} (p : A -> bool) (pre post : list A) (x : A) :
  Forall (fun y => p y = false) pre -> p x = true ->
  List.find p (pre ++ x :: post) = Some x.
Proof.
  induction 1 as [|y pre Hy _ IH]; intros Hx; cbn; [by rewrite Hx|].
  rewrite Hy. by apply IH.
Qed.

(** X14: the type of a ticket is the first category, in the order of
    the keyword table, one of whose keywords occurs in the lower-cased
    description; it is the consultation exactly when no keyword of any
    category occurs; and a type other than the consultation always has a
    keyword in the text. *)
Theorem intent_by_precedence (ticket : Ticket.t) :
  let text := Py.lower (py_str (get (Ticket.description ticket) "")) in
  let t_type := AI.type (analyze_ticket ticket) in
  (forall pre cat words post,
      keywords = pre ++ (cat, words) :: post ->
      mentions words text ->
      Forall (fun kw => ~ mentions kw.2 text) pre ->
      t_type = cat) /\
  (Forall (fun kw => ~ mentions kw.2 text) keywords <-> t_type = Consultation) /\
  (t_type = Consultation \/
   Exists (fun kw => kw.1 = t_type /\ mentions kw.2 text) keywords).
Proof.
  cbv zeta. unfold analyze_ticket. cbn [AI.type]. unfold type_of.
  set (text := Py.lower _).
  set (p := fun kw : Intent * list string => List.existsb (fun w => Py.contains w text) kw.2).
  assert (forall kw, p kw = true <-> mentions kw.2 text) as Hp
    by (intros kw; apply existsb_contains).
  destruct (List.find p keywords) as [[cat0 words0]|] eqn:Hf.
  - split; [|split].
    + intros pre cat words post Hk Hm Hpre. rewrite Hk in Hf.
      rewrite (find_first p pre post (cat, words)) in Hf.
      * by injection Hf as -> _.
      * eapply Forall_impl; [exact Hpre|]. intros kw Hkw.
        destruct (p kw) eqn:E; [|done]. by apply Hp in E.
      * by apply Hp.
    + apply find_some in Hf as [Hin Hm]. apply Hp in Hm.
      split.
      * intros Hall. rewrite Forall_forall in Hall. exfalso.
        apply (Hall (cat0, words0)); [by apply list_elem_of_In | done].
      * intros ->. revert Hin. cbn. intuition congruence.
    + right. apply find_some in Hf as [Hin Hm]. apply Hp in Hm.
      apply Exists_exists. exists (cat0, words0).
      split; [by apply list_elem_of_In | done].
  - assert (Forall (fun kw => ~ mentions kw.2 text) keywords) as Hnone.
    { apply Forall_forall. intros kw Hin Hm. apply Hp in Hm.
      apply list_elem_of_In in Hin. by rewrite (find_none _ _ Hf kw Hin) in Hm. }
    split; [|split; [done | by left]].
    intros pre cat words post Hk Hm Hpre. exfalso.
    rewrite Forall_forall in Hnone. apply (Hnone (cat, words)); [|done].
    rewrite Hk. apply elem_of_app. right. left.
Qed.

Lemma has_latin_word_iff (s : string) :
  Py.has_latin_word s = true <-> latin_word_in s.
Proof.
  unfold latin_word_in. induction s as [|a s IH].
  - split; [done|]. intros ([|? ?] & ? & ? & ? & ? & H & _); discriminate H.
  - destruct s as [|b [|c s]].
    + split; [done|].
      intros ([|? [|? ?]] & ? & ? & ? & ? & H & _); discriminate H.
    + split; [done|].
      intros ([|? [|? [|? ?]]] & ? & ? & ? & ? & H & _); discriminate H.
    + change (Py.has_latin_word (String a (String b (String c s))))
        with ((Py.is_az a && Py.is_az b && Py.is_az c) ||
              Py.has_latin_word (String b (String c s))).
      rewrite orb_true_iff, !andb_true_iff, IH. split.
      * intros [[[Ha Hb] Hc] | (pre & x & y & z & post & H & Hx)].
        -- by exists EmptyString, a, b, c, s.
        -- exists (String a pre), x, y, z, post. split; [|done].
           change (String a (String b (String c s)) = String a (pre +:+ String x (String y (String z post)))).
           by rewrite H.
      * intros ([|a' pre] & x & y & z & post & H & Hx & Hy & Hz).
        -- left. change (String a (String b (String c s)) = String x (String y (String z post))) in H.
           by injection H as -> -> -> _.
        -- right. exists pre, x, y, z, post. split; [|done].
           change (String a (String b (String c s)) = String a' (pre +:+ String x (String y (String z post)))) in H.
           by injection H as _ ->.
Qed.

(** X15: the language is KZ exactly when a Kazakh letter of the class
    occurs in the lower-cased description, ENG exactly when none does
    and three letters a-z in a row occur, RU exactly when neither
    occurs. *)
Theorem language_detection (ticket : Ticket.t) :
  let text := Py.lower (py_str (get (Ticket.description ticket) "")) in
  let lang := AI.lang (analyze_ticket ticket) in
  (lang = KZ <-> mentions kz_letters text) /\
  (lang = ENG <-> ~ mentions kz_letters text /\ latin_word_in text) /\
  (lang = RU <-> ~ mentions kz_letters text /\ ~ latin_word_in text).
Proof.
  cbv zeta. unfold analyze_ticket. cbn [AI.lang]. unfold lang_of, Py.has_char_of.
  rewrite <- existsb_contains, <- has_latin_word_iff.
  destruct (List.existsb _ kz_letters); [|destruct (Py.has_latin_word _)].
  all: intuition congruence.
Qed.

(** ** The constructor's helpers *)

Example split_skills : str_split "," "a,,b c," = ["a"; ""; "b c"; ""].
Proof. reflexivity. Qed.

Example parse_skills_sample :
  _parse_skills (Str " vip; Eng ,,kz ,VIP") = list_to_set ["VIP"; "ENG"; "KZ"] /\
  _parse_skills (Str " NaN ") = ∅.
Proof. split; vm_compute; reflexivity. Qed.

Lemma upper_nonempty (s : string) : Py.upper s = "" -> s = "".
Proof.
  unfold Py.upper. destruct s as [|c s]; [done|]. cbn [Py.map_cp].
  destruct (_ <? _)%N; [done|]. destruct s as [|d s]; [done|].
  by destruct (_ && _).
Qed.

(** X16: [_parse_skills] never yields the empty token; each token is
    the upper-cased, stripped form of a non-blank piece of the cell split
    at commas and semicolons; and a missing cell, a blank cell and the
    text nan in any case give the empty set. *)
Theorem parse_skills_tokens (x : cell) :
  ("" ∉ _parse_skills x) /\
  (forall t, t ∈ _parse_skills x ->
             exists p, p ∈ str_split "," (Py.replace ";" "," (Py.strip (py_str x))) /\
                       Py.strip p <> "" /\ t = Py.upper (Py.strip p)) /\
  (x = NaN \/ Py.strip (py_str x) = "" \/ Py.lower (Py.strip (py_str x)) = "nan" ->
   _parse_skills x = ∅).
Proof.
  assert (forall t, t ∈ _parse_skills x ->
             exists p, p ∈ str_split "," (Py.replace ";" "," (Py.strip (py_str x))) /\
                       Py.strip p <> "" /\ t = Py.upper (Py.strip p)) as Htok.
  { intros t. unfold _parse_skills. destruct x as [s|]; [|set_solver].
    destruct (_ || _); [set_solver|].
    rewrite elem_of_list_to_set, list_elem_of_In, in_map_iff.
    intros (p & <- & Hp). apply filter_In in Hp as [Hin Hne].
    exists p. split; [by apply list_elem_of_In|]. split; [|done].
    apply negb_true_iff, String.eqb_neq in Hne. done. }
  split; [|split; [exact Htok|]].
  - intros H. apply Htok in H as (p & _ & Hne & Hp). symmetry in Hp.
    by apply upper_nonempty in Hp.
  - unfold _parse_skills. destruct x as [s|]; [|done]. cbn [py_str].
    intros [H|[H|H]]; [done|..]; rewrite H.
    + done.
    + by rewrite orb_true_r.
Qed.

(** ** The alias table *)

Lemma first_alias_Some (columns aliases : list string) (alias : string) :
  first_alias columns aliases = Some alias -> alias ∈ aliases /\ alias ∈ columns.
Proof.
  unfold first_alias. intros H. apply find_some in H as [Hin Hc].
  split; [by apply list_elem_of_In | by apply bool_decide_eq_true in Hc].
Qed.

Lemma first_alias_None (columns aliases : list string) (alias : string) :
  first_alias columns aliases = None -> alias ∈ aliases -> alias ∉ columns.
Proof.
  unfold first_alias. intros H Hin Hc. apply list_elem_of_In in Hin.
  pose proof (find_none _ _ H alias Hin) as Hn. cbn in Hn.
  by rewrite bool_decide_eq_true_2 in Hn.
Qed.

Lemma alias_in_concat (table : list (string * list string)) entry alias :
  entry ∈ table -> alias ∈ entry.2 -> alias ∈ concat (List.map snd table).
Proof.
  intros He Ha. apply list_elem_of_In, in_concat. exists entry.2.
  split; [apply in_map; by apply list_elem_of_In | by apply list_elem_of_In].
Qed.

(** With no alias listed twice, the map sends an alias to the field of
    the one entry that chooses it. *)
Lemma rename_map_lookup (table : list (string * list string)) (columns : list string)
    (m : gmap string string) (alias : string) :
  NoDup (concat (List.map snd table)) ->
  foldl (add_alias columns) m table !! alias =
  match List.find (chooses columns alias) table with
  | Some entry => Some entry.1
  | None => m !! alias
  end.
Proof.
  revert m. induction table as [|entry table IH]; intros m Hnd; [done|].
  cbn [List.map concat] in Hnd. apply NoDup_app in Hnd as (_ & Hdis & Hnd).
  cbn [foldl List.find]. rewrite (IH _ Hnd).
  destruct (chooses columns alias entry) eqn:Hch.
  - apply bool_decide_eq_true in Hch.
    destruct (List.find (chooses columns alias) table) as [entry'|] eqn:Hf.
    + exfalso. apply find_some in Hf as [Hin Hch'].
      apply bool_decide_eq_true, first_alias_Some in Hch' as [Ha' _].
      apply first_alias_Some in Hch as [Ha _].
      apply (Hdis alias Ha). eapply alias_in_concat; [|exact Ha'].
      by apply list_elem_of_In.
    + unfold add_alias. rewrite Hch. by rewrite lookup_insert_eq.
  - destruct (List.find (chooses columns alias) table); [done|].
    apply bool_decide_eq_false in Hch. unfold add_alias.
    destruct (first_alias columns entry.2) as [a0|]; [|done].
    rewrite lookup_insert_ne; [done | congruence].
Qed.

Lemma same_entry (table : list (string * list string)) e1 e2 alias :
  NoDup (concat (List.map snd table)) ->
  e1 ∈ table -> e2 ∈ table -> alias ∈ e1.2 -> alias ∈ e2.2 -> e1 = e2.
Proof.
  induction table as [|e table IH]; intros Hnd H1 H2 Ha1 Ha2.
  { by apply elem_of_nil in H1. }
  cbn [List.map concat] in Hnd. apply NoDup_app in Hnd as (_ & Hdis & Hnd).
  apply elem_of_cons in H1 as [->|H1]; apply elem_of_cons in H2 as [->|H2].
  - done.
  - exfalso. apply (Hdis alias Ha1). by eapply alias_in_concat.
  - exfalso. apply (Hdis alias Ha2). by eapply alias_in_concat.
  - by apply IH.
Qed.

(** A field of the table is a label after the renaming exactly when it
    was present. *)
Lemma renamed_iff_present (table : list (string * list string)) (columns : list string)
    (field : string) (aliases : list string) :
  well_formed table -> (field, aliases) ∈ table ->
  field ∈ List.map (rename (rename_map_of table columns)) columns <->
  present table columns field.
Proof.
  intros [Hnd Hwf] Hfield. unfold rename_map_of, present.
  rewrite list_elem_of_In, in_map_iff. split.
  - intros (c & Hc & Hin). apply list_elem_of_In in Hin. unfold rename in Hc.
    rewrite (rename_map_lookup _ _ _ _ Hnd) in Hc.
    destruct (List.find (chooses columns c) table) as [[f als]|] eqn:Hf.
    + cbn in Hc. subst f. apply find_some in Hf as [He Hch].
      apply bool_decide_eq_true, first_alias_Some in Hch as [Ha Hcol].
      right. exists als, c. split; [by apply list_elem_of_In | done].
    + rewrite lookup_empty in Hc. cbn in Hc. subst c. by left.
  - intros [Hin | (als & a & He & Ha & Hcol)].
    + exists field. split; [|by apply list_elem_of_In]. unfold rename.
      rewrite (rename_map_lookup _ _ _ _ Hnd).
      destruct (List.find (chooses columns field) table) as [[f als]|] eqn:Hf; [|done].
      apply find_some in Hf as [He Hch]. apply list_elem_of_In in He.
      apply bool_decide_eq_true, first_alias_Some in Hch as [Ha _]. cbn.
      rewrite Forall_forall in Hwf. specialize (Hwf _ Hfield).
      rewrite Forall_forall in Hwf. symmetry. by apply (Hwf _ He).
    + destruct (first_alias columns als) as [a0|] eqn:Hfa;
        [|by destruct (first_alias_None _ _ _ Hfa Ha)].
      pose proof (first_alias_Some _ _ _ Hfa) as [Ha0 Hcol0].
      exists a0. split; [|by apply list_elem_of_In]. unfold rename.
      rewrite (rename_map_lookup _ _ _ _ Hnd).
      destruct (List.find (chooses columns a0) table) as [[f als']|] eqn:Hf.
      * apply find_some in Hf as [He' Hch]. apply list_elem_of_In in He'.
        apply bool_decide_eq_true, first_alias_Some in Hch as [Ha' _].
        by injection (same_entry _ _ _ _ Hnd He' He Ha' Ha0) as -> _.
      * apply list_elem_of_In in He.
        pose proof (find_none _ _ Hf _ He) as Hn. unfold chooses in Hn. cbn in Hn.
        by rewrite bool_decide_eq_true_2 in Hn.
Qed.

Lemma COLUMN_ALIASES_well_formed : well_formed COLUMN_ALIASES.
Proof.
  split; apply (bool_decide_unpack _); vm_compute; exact I.
Qed.

(** X17: for required fields of the alias table, [_smart_normalize]
    either returns as many columns as it was given, and then every
    required field was present among the normalised headers under its
    own name or an alias and is a column of the result; or it raises the
    ValueError, and then the set it reports is not empty and holds
    exactly the required fields that were not present. *)
Theorem smart_normalize_schema (columns required : list string) :
  Forall (fun field => field ∈ COLUMN_ALIASES.*1) required ->
  let headers := List.map normalize_header columns in
  match _smart_normalize columns required with
  | Columns renamed =>
      length renamed = length columns /\
      Forall (present COLUMN_ALIASES headers) required /\
      Forall (fun field => field ∈ renamed) required
  | ValueError missing =>
      missing <> ∅ /\
      forall field, field ∈ missing <->
                    field ∈ required /\ ~ present COLUMN_ALIASES headers field
  end.
Proof.
  intros Hreq. cbv zeta. unfold _smart_normalize, smart_normalize_with.
  set (headers := List.map normalize_header columns).
  set (renamed := List.map (rename (rename_map_of COLUMN_ALIASES headers)) headers).
  assert (forall field, field ∈ required ->
            (field ∈ renamed <-> present COLUMN_ALIASES headers field)) as Hiff.
  { intros field Hin. rewrite Forall_forall in Hreq.
    apply Hreq, list_elem_of_fmap in Hin as ([f als] & -> & He).
    by apply (renamed_iff_present _ _ _ als COLUMN_ALIASES_well_formed). }
  destruct (decide _) as [Hm|Hm].
  - split; [unfold renamed, headers; by rewrite !length_map|].
    assert (Forall (fun field => field ∈ renamed) required) as Hall.
    { apply Forall_forall. intros field Hin.
      destruct (decide (field ∈ renamed)) as [|Hn]; [done|]. exfalso.
      assert (field ∈ (list_to_set required ∖ list_to_set renamed : gset string)) as H.
      { apply elem_of_difference. by rewrite !elem_of_list_to_set. }
      rewrite Hm in H. by apply not_elem_of_empty in H. }
    split; [|done]. apply Forall_forall. intros field Hin.
    rewrite Forall_forall in Hall. by apply Hiff, Hall.
  - split; [done|]. intros field.
    rewrite elem_of_difference, !elem_of_list_to_set. split.
    + intros [Hin Hn]. split; [done|]. by rewrite <- Hiff.
    + intros [Hin Hn]. split; [done|]. by rewrite Hiff.
Qed.

Lemma smart_normalize_schema_witness :
  Forall (fun field => field ∈ COLUMN_ALIASES.*1) managers_fields /\
  _smart_normalize managers_sheet managers_fields = Columns managers_fields /\
  Forall (present COLUMN_ALIASES (List.map normalize_header managers_sheet))
         managers_fields.
Proof.
  assert (Forall (fun field => field ∈ COLUMN_ALIASES.*1) managers_fields) as Hreq
    by (apply (bool_decide_unpack _); vm_compute; exact I).
  assert (_smart_normalize managers_sheet managers_fields = Columns managers_fields) as Hn
    by (vm_compute; reflexivity).
  split; [exact Hreq|]. split; [exact Hn|].
  pose proof (smart_normalize_schema managers_sheet managers_fields Hreq) as H.
  cbv zeta in H. rewrite Hn in H. exact (proj1 (proj2 H)).
Defined.

(** ** Offices, by cases *)

Lemma city_matches_iff (city off : string) :
  city_matches city off = true <-> matches_city city off.
Proof.
  unfold city_matches, matches_city.
  rewrite andb_true_iff, negb_true_iff, orb_true_iff, String.eqb_neq, !contains_iff. done.
Qed.

Lemma not_true_Forall {A} (p : A -> bool) (P : A -> Prop) (l : list A) :
  (forall x, p x = true <-> P x) ->
  Forall (fun x => ~ P x) l -> Forall (fun x => p x = false) l.
Proof.
  intros H HF. eapply Forall_impl; [exact HF|].
  intros x Hx. destruct (p x) eqn:E; [|done]. by apply H in E.
Qed.

Lemma find_all_false {A} (p : A -> bool) (l : list A) :
  Forall (fun x => p x = false) l -> List.find p l = None.
Proof. induction 1 as [|x l Hx _ IH]; cbn; [done|]. by rewrite Hx. Qed.


(** X19: [get_office] by cases.  The first unit, in the order of the
    units frame, whose root matches the lower-cased city is returned,
    whatever the country, and the engine is left as it was.  With no such
    unit a domestic country gives the Astana office, again with the
    engine as it was; any other country gives the Astana office on an
    even counter of unknown locations and the Almaty office on an odd
    one, and adds 1 to that counter. *)
Theorem office_resolution (e : Engine) (ticket : Ticket.t) :
  let city := Py.lower (py_str (get (Ticket.city ticket) "")) in
  let country_norm :=
    Py.keep_letters (Py.lower (py_str (get (Ticket.country ticket) ""))) in
  let domestic := mentions ["казахстан"; "kazakhstan"; "kz"] country_norm in
  (forall pre off post,
      units e = pre ++ off :: post ->
      matches_city city off ->
      Forall (fun u => ~ matches_city city u) pre ->
      get_office e ticket = (off, e)) /\
  (Forall (fun u => ~ matches_city city u) (units e) -> domestic ->
   get_office e ticket = (astana_office e, e)) /\
  (Forall (fun u => ~ matches_city city u) (units e) -> ~ domestic ->
   get_office e ticket =
     (if Z.even (unknown_loc_counter e) then astana_office e else almaty_office e,
      set_unknown_loc_counter e (unknown_loc_counter e + 1))).
Proof.
  cbv zeta. unfold get_office.
  set (city := Py.lower (py_str (get (Ticket.city ticket) ""))).
  set (country_norm := Py.keep_letters _).
  assert (is_domestic country_norm = true <->
          mentions ["казахстан"; "kazakhstan"; "kz"] country_norm) as Hdom
    by apply existsb_contains.
  split; [|split].
  - intros pre off post -> Hoff Hpre.
    apply (not_true_Forall (city_matches city)) in Hpre; [|intros; apply city_matches_iff].
    apply city_matches_iff in Hoff. by rewrite (find_first _ _ _ _ Hpre Hoff).
  - intros Hall Hd.
    apply (not_true_Forall (city_matches city)) in Hall; [|intros; apply city_matches_iff].
    rewrite (find_all_false _ _ Hall). apply Hdom in Hd. by rewrite Hd.
  - intros Hall Hd.
    apply (not_true_Forall (city_matches city)) in Hall; [|intros; apply city_matches_iff].
    rewrite (find_all_false _ _ Hall).
    destruct (is_domestic country_norm) eqn:E; [exfalso; apply Hd, Hdom; reflexivity|].
    cbn [negb].
    rewrite Zmod_even. by destruct (Z.even _).
Qed.

(** ** The sort is stable *)

Lemma same_key_row_le (x a y : Row) :
  same_key x a = true -> same_key x y = true -> row_le a y = true.
Proof.
  unfold same_key, row_le.
  intros [Ha Hna]%andb_prop [Hy Hny]%andb_prop.
  apply Z.eqb_eq in Ha, Hy. apply String.eqb_eq in Hna, Hny.
  rewrite Hna, Hny. apply orb_true_iff. right.
  rewrite andb_true_iff, Z.eqb_eq. split; [lia|].
  destruct (String.leb_total (Manager.name x.2) (Manager.name x.2)); done.
Qed.

Lemma filter_insert_row (x a : Row) (l : list Row) :
  List.filter (same_key x) (insert_row a l) = List.filter (same_key x) (a :: l).
Proof.
  induction l as [|y l IH]; [done|]. cbn [insert_row].
  destruct (row_le a y) eqn:Hle; [done|].
  cbn [List.filter] in *. rewrite IH.
  destruct (same_key x a) eqn:Ha; [|done].
  destruct (same_key x y) eqn:Hy; [|done].
  by rewrite (same_key_row_le x a y) in Hle.
Qed.

(** X20: the sort of the selector is stable: rows with the same load
    and the same name come out in the order they came in. *)
Theorem sort_values_stable (l : list Row) (x : Row) :
  List.filter (same_key x) (sort_values l) = List.filter (same_key x) l.
Proof.
  induction l as [|a l IH]; [done|].
  cbn [sort_values foldr]. fold (sort_values l).
  rewrite filter_insert_row. cbn [List.filter]. by rewrite IH.
Qed.

(** ** Runs that return *)

Lemma distribute_loop_records (e : Engine) (ts : list Ticket.t) :
  (distribute_loop e ts).2 = None ->
  Forall2 record_of ts (List.map tr_result (distribute_loop e ts).1.2).
Proof.
  revert e. induction ts as [|t ts IH]; intros e; [constructor|].
  rewrite distribute_loop_cons.
  destruct (distribute_step e t) as [e1 [tr|x]] eqn:Hs; [|done].
  specialize (IH e1). destruct (distribute_loop e1 ts) as [[e2 trs] r]. cbn in *.
  intros Hr. constructor; [|by apply IH].
  unfold distribute_step in Hs. destruct (get_office e t) as [resolved e0].
  destruct (pipeline e0 resolved _) as [filtered|]; [|done].
  destruct (escalation e0 _ resolved filtered) as [escalated office].
  destruct (selector e0 _ _) as [[[m sel] e3]|]; [|done].
  by injection Hs as _ <-.
Qed.

(** X21: when [distribute] returns, its records pair off with the
    tickets in order: each carries the guid of its ticket (N/A if the
    ticket has none) and the type, language and priority of the analysis
    of that ticket; so there are as many records as tickets. *)
Theorem results_follow_tickets (e : Engine) (rs : list Result.t) :
  (distribute e).2 = Ok rs ->
  Forall2 record_of (tickets e) rs /\ length rs = length (tickets e).
Proof.
  unfold distribute.
  pose proof (distribute_loop_records e (tickets e)) as H.
  destruct (distribute_loop e (tickets e)) as [[e' trs] [x|]]; cbn in *; [done|].
  intros [= <-]. split; [by apply H|].
  symmetry. eapply Forall2_length. by apply H.
Qed.

Lemma results_follow_tickets_witness :
  let e := tied_pair 4 in
  let rs := List.map tr_result (distribute_loop e (tickets e)).1.2 in
  (distribute e).2 = Ok rs /\
  Forall2 record_of (tickets e) rs /\ length rs = 4%nat.
Proof.
  cbv zeta.
  assert ((distribute (tied_pair 4)).2 =
          Ok (List.map tr_result
                (distribute_loop (tied_pair 4) (tickets (tied_pair 4))).1.2)) as Hd
    by (vm_compute; reflexivity).
  split; [exact Hd|].
  exact (results_follow_tickets _ _ Hd).
Defined.

(** X22: a run raises nothing when every ticket is of the MASS
    segment, or is in Russian and no change of data: [distribute] then
    returns its records. *)
Theorem run_completes (e : Engine) :
  Forall reads_no_column (tickets e) ->
  exists rs, (distribute e).2 = Ok rs.
Proof.
  intros Hall. unfold distribute.
  assert (forall ts e0, Forall reads_no_column ts -> (distribute_loop e0 ts).2 = None) as Hloop.
  { induction ts as [|t ts IH]; intros e0 Hts; [done|].
    apply Forall_cons in Hts as [Ht Hts]. rewrite distribute_loop_cons.
    destruct (pipeline_ok (get_office e0 t).2 (get_office e0 t).1 (analyze_ticket t))
      as [f Hf]; [by right|].
    destruct (distribute_step_ok _ _ _ Hf) as (e1 & tr & ->).
    specialize (IH e1 Hts). by destruct (distribute_loop e1 ts) as [[e2 trs] r]. }
  specialize (Hloop (tickets e) e Hall).
  destruct (distribute_loop e (tickets e)) as [[e' trs] r]. cbn in *. subst r. eauto.
Qed.

Lemma run_completes_witness :
  Forall reads_no_column (tickets (tied_pair 4)) /\
  exists rs, (distribute (tied_pair 4)).2 = Ok rs.
Proof.
  assert (Forall reads_no_column (tickets (tied_pair 4))) as Hall
    by (repeat (constructor; [left; vm_compute; reflexivity|]); constructor).
  split; [exact Hall|].
  exact (run_completes _ Hall).
Defined.
